(** * MemoryHug: the Float8 codec and the allocation tracker of [src/main.cpp]

    The program packs a native [float] into one byte (1 sign bit, 4 exponent
    bits, 3 mantissa bits, bias 7), unpacks it again, and counts the bytes
    that go through the class-level [operator new[]] / [operator delete[]].

    The native [float] is IEEE-754 binary32.  It is modelled with the
    bit-exact specification of floating-point arithmetic that ships with the
    prover ([SpecFloat], precision 24, maximal exponent 128): every
    floating-point operation of the source is the corresponding [SF*]
    operation with round-to-nearest-even, so nothing is idealised to real
    numbers.  Rationals ([Q]) are used only to read a float's value. *)

From Stdlib Require Import ZArith List Bool Lia QArith Qabs Qpower.
From Stdlib Require Import Floats.SpecFloat.
Import ListNotations.

Local Open Scope Z_scope.

(** ** The native [float] *)

Module F32.

Definition prec : Z := 24.
Definition emax : Z := 128.

Definition float : Type := spec_float.

(** A well-formed binary32 datum: canonical mantissa, exponent in range. *)
Definition valid (f : float) : bool := valid_binary prec emax f.

(** Neither NaN nor an infinity. *)
Definition is_finite (f : float) : bool :=
  match f with
  | S754_zero _ | S754_finite _ _ _ => true
  | _ => false
  end.

Definition is_nan (f : float) : bool :=
  match f with S754_nan => true | _ => false end.

Definition is_infinite (f : float) : bool :=
  match f with S754_infinity _ => true | _ => false end.

(** [static_cast<float>(n)] for an [int] n. *)
Definition of_int (n : Z) : float := binary_normalize prec emax n 0 false.

Definition zero : float := S754_zero false.          (* 0.0f *)
Definition one : float := SFone prec emax.           (* 1.0f *)

Definition eqb : float -> float -> bool := SFeqb.    (* == *)
Definition ltb : float -> float -> bool := SFltb.    (* <  *)
Definition leb : float -> float -> bool := SFleb.    (* <= *)
Definition abs : float -> float := SFabs.            (* std::abs *)
Definition opp : float -> float := SFopp.            (* unary - *)
Definition add : float -> float -> float := SFadd prec emax.
Definition sub : float -> float -> float := SFsub prec emax.
Definition mul : float -> float -> float := SFmul prec emax.
Definition div : float -> float -> float := SFdiv prec emax.
Definition ldexp : float -> Z -> float := SFldexp prec emax.

(** [std::frexp]: for a finite non-zero argument the mantissa in
    [0.5, 1) and the binary exponent; for a zero, the zero and exponent 0.
    For an infinity or a NaN the stored exponent is unspecified, which is
    [None] here. *)
Definition frexp (f : float) : option (float * Z) :=
  match f with
  | S754_zero _ => Some (f, 0)
  | S754_finite _ _ _ => Some (SFfrexp prec emax f)
  | _ => None
  end.

Definition INT_MIN : Z := - 2 ^ 31.
Definition INT_MAX : Z := 2 ^ 31 - 1.

(** [static_cast<int>(f)]: truncation toward zero; undefined ([None]) when
    the truncated value does not fit an [int] or [f] is not finite. *)
Definition to_int (f : float) : option Z :=
  match f with
  | S754_zero _ => Some 0
  | S754_finite s m e =>
      let t := cond_Zopp s (Z.shiftl (Zpos m) e) in
      if (INT_MIN <=? t) && (t <=? INT_MAX) then Some t else None
  | _ => None
  end.

(** The rational a float denotes (0 for the data that denote none). *)
Definition to_Q (f : float) : Q :=
  match f with
  | S754_finite s m e => inject_Z (cond_Zopp s (Zpos m)) * Qpower 2 e
  | _ => 0
  end.

(** Structural equality test, used to check tables of results. *)
Definition same (f g : float) : bool :=
  match f, g with
  | S754_zero s, S754_zero t => Bool.eqb s t
  | S754_infinity s, S754_infinity t => Bool.eqb s t
  | S754_nan, S754_nan => true
  | S754_finite s m e, S754_finite t n k =>
      Bool.eqb s t && Pos.eqb m n && Z.eqb e k
  | _, _ => false
  end.

End F32.

(** ** [MemoryManager::Float8] *)

Module Float8.

Definition EXP_BITS : Z := 4.
Definition MANT_BITS : Z := 3.
Definition BIAS : Z := 7.

(** A store into the [uint8_t] member keeps the low eight bits. *)
Definition uint8 (n : Z) : Z := n mod 256.

(** The biased exponent the constructor computes for a finite non-zero
    [f]: [frexp]'s exponent of [|f|], plus [BIAS]. *)
Definition biased_exponent (f : F32.float) : option Z :=
  match F32.frexp (F32.abs f) with
  | Some (_, exponent) => Some (exponent + BIAS)
  | None => None
  end.

(** [Float8(float f)], lines 17-39.  The result is the byte [value]. *)
Definition of_float (f : F32.float) : option Z :=
  if F32.eqb f (F32.of_int 0) then Some 0
  else
    let sign := if F32.ltb f (F32.of_int 0) then 1 else 0 in
    let f := F32.abs f in
    match F32.frexp f with
    | None => None
    | Some (mantissa, exponent) =>
        let exponent := exponent + BIAS in
        if exponent <=? 0 then Some 0
        else if exponent >=? Z.shiftl 1 EXP_BITS then
          Some (uint8 (Z.lor (Z.shiftl sign 7)
                             (Z.shiftl (Z.shiftl 1 EXP_BITS - 1) MANT_BITS)))
        else
          match F32.to_int (F32.mul mantissa (F32.of_int (Z.shiftl 1 MANT_BITS))) with
          | None => None
          | Some mant =>
              Some (uint8 (Z.lor (Z.lor (Z.shiftl sign 7)
                                        (Z.shiftl exponent MANT_BITS)) mant))
          end
    end.

(** The three fields [operator float] reads off the byte. *)
Definition sign_field (value : Z) : Z := Z.land (Z.shiftr value 7) 1.
Definition exponent_field (value : Z) : Z :=
  Z.land (Z.shiftr value MANT_BITS) (Z.shiftl 1 EXP_BITS - 1).
Definition mantissa_field (value : Z) : Z :=
  Z.land value (Z.shiftl 1 MANT_BITS - 1).

(** The local [mantissa] of [operator float] after [mantissa += 1.0f]. *)
Definition significand (value : Z) : F32.float :=
  let mantissa :=
    F32.div (F32.of_int (mantissa_field value))
            (F32.of_int (Z.shiftl 1 MANT_BITS)) in
  F32.add mantissa F32.one.

(** [operator float() const], lines 41-51. *)
Definition to_float (value : Z) : F32.float :=
  if value =? 0 then F32.zero
  else
    let sign := sign_field value in
    let exponent := exponent_field value - BIAS in
    let mantissa := significand value in
    let result := F32.ldexp mantissa exponent in
    if sign =? 0 then result else F32.opp result.

(** [operator+] and [operator*], lines 53-59. *)
Definition add (a b : Z) : option Z :=
  of_float (F32.add (to_float a) (to_float b)).

Definition mul (a b : Z) : option Z :=
  of_float (F32.mul (to_float a) (to_float b)).

(** [sizeof(Float8)]: one [uint8_t] member, no virtual functions. *)
Definition sizeof : Z := 1.

End Float8.

(** ** [MemoryManager]: the allocation tracker and the optimized workload *)

Module MemoryManager.

(** [size_t] is a 64-bit unsigned integer; [+=] wraps around. *)
Definition size_t (n : Z) : Z := n mod 2 ^ 64.

(** The calls that reach the two static functions, oldest first.  The log
    is not a variable of the program: it records which calls were made, so
    that "one allocation, one free" can be stated. *)
Inductive event : Type :=
| Allocate (size : Z)
| Deallocate (size : Z).

Record tracker : Type := {
  totalAllocated : Z;
  totalFreed : Z;
  calls : list event
}.

(** [allocate], lines 83-87.  The storage itself is the caller's list. *)
Definition allocate (size : Z) (t : tracker) : tracker :=
  {| totalAllocated := size_t (totalAllocated t + size);
     totalFreed := totalFreed t;
     calls := calls t ++ [Allocate size] |}.

(** [deallocate], lines 89-93. *)
Definition deallocate (size : Z) (t : tracker) : tracker :=
  {| totalAllocated := totalAllocated t;
     totalFreed := size_t (totalFreed t + size);
     calls := calls t ++ [Deallocate size] |}.

(** [resetMemoryTracking], lines 128-131. *)
Definition resetMemoryTracking (t : tracker) : tracker :=
  {| totalAllocated := 0; totalFreed := 0; calls := calls t |}.

Definition bind {A B : Type} (m : option A) (k : A -> option B) : option B :=
  match m with
  | Some a => k a
  | None => None
  end.

(** [data[j] = v]; an index outside the array is undefined behaviour. *)
Fixpoint store (data : list Z) (j : nat) (v : Z) : option (list Z) :=
  match data, j with
  | [], _ => None
  | _ :: rest, O => Some (v :: rest)
  | d :: rest, S j' => option_map (cons d) (store rest j' v)
  end.

(** [for (; j < bound; ++j) data[j] = static_cast<float>(j);] with
    [count] iterations left: the [int] is converted to [float], the
    converting constructor packs it, the byte is copied into the slot. *)
Fixpoint write_from (count : nat) (j : Z) (data : list Z) : option (list Z) :=
  match count with
  | O => Some data
  | S count' =>
      bind (Float8.of_float (F32.of_int j)) (fun v =>
      bind (store data (Z.to_nat j) v) (fun data' =>
      write_from count' (j + 1) data'))
  end.

Definition inner_loop (data : list Z) : option (list Z) :=
  write_from 1000 0 data.

Section ArrayNew.

(** A new-expression [new T[n]] hands [sizeof(T) * n + overhead] to
    [operator new[]], and [delete[]] hands the same number to the sized
    [operator delete[]].  The overhead is chosen by the implementation,
    not by the program: the Itanium C++ ABI reserves a cookie of
    [sizeof(size_t)] = 8 bytes in front of the array when, as here, the
    class's array deallocation function takes a size argument; other
    implementations may reserve nothing. *)
Variable overhead : Z.

Definition array_bytes (n : Z) : Z := Float8.sizeof * n + overhead.

(** [new Float8[n]], lines 69-71: one [allocate], then each element is
    default-constructed from [0.0f]. *)
Definition array_new (n : nat) (t : tracker) : option (list Z * tracker) :=
  let t' := allocate (array_bytes (Z.of_nat n)) t in
  bind (Float8.of_float F32.zero) (fun v => Some (repeat v n, t')).

(** [delete[] data], lines 73-75. *)
Definition array_delete (data : list Z) (t : tracker) : tracker :=
  deallocate (array_bytes (Z.of_nat (length data))) t.

(** [optimizedMemoryUsage], lines 109-122, with the bound of the outer
    loop as a parameter.  The report printed at the end reads the two
    totals and changes nothing. *)
Definition optimized_workload (iterations : N) (t : tracker) : option tracker :=
  bind (array_new 1000 t) (fun '(data, t1) =>
  bind (N.iter iterations (fun d => bind d inner_loop) (Some data)) (fun data' =>
  Some (array_delete data' t1))).

Definition optimizedMemoryUsage (t : tracker) : option tracker :=
  optimized_workload 1000000 t.

End ArrayNew.

End MemoryManager.

(** ** The rest of the harness: the non-optimized workload and [runAllTests] *)

Module Harness.

Import MemoryManager.

Section Workloads.

(** The array overhead of the implementation, as in [MemoryManager]. *)
Variable overhead : Z.

(** The body of the loop of [nonOptimizedMemoryUsage], lines 98-102: a fresh
    array, the write loop, the release of the array. *)
Definition allocate_write_free (t : tracker) : option tracker :=
  bind (array_new overhead 1000 t) (fun '(data, t1) =>
  bind (inner_loop data) (fun data' =>
  Some (array_delete overhead data' t1))).

(** [nonOptimizedMemoryUsage], lines 96-107, with the bound of the loop as a
    parameter. *)
Definition non_optimized_workload (iterations : N) (t : tracker) : option tracker :=
  N.iter iterations (fun acc => bind acc allocate_write_free) (Some t).

Definition nonOptimizedMemoryUsage (t : tracker) : option tracker :=
  non_optimized_workload 1000000 t.

(** The two totals a workload prints when it ends, in bytes (the program
    divides each by [1024.0 * 1024.0] for display). *)
Definition report (t : tracker) : Z * Z := (totalAllocated t, totalFreed t).

(** [runAllTests], lines 133-161, as far as the tracker goes: the first
    workload and its report, the reset, the second workload and its report.
    The clock readings and what is computed from them are left out. *)
Definition runAllTests (t : tracker) : option ((Z * Z) * (Z * Z) * tracker) :=
  bind (nonOptimizedMemoryUsage t) (fun t1 =>
  bind (optimizedMemoryUsage overhead (resetMemoryTracking t1)) (fun t3 =>
  Some (report t1, report t3, t3))).

End Workloads.

End Harness.

(** ** The native [double] and [estimateEnergyConsumption] *)

Module F64.

Definition prec : Z := 53.
Definition emax : Z := 1024.

Definition double : Type := spec_float.

Definition zero : double := S754_zero false.

Definition mul : double -> double -> double := SFmul prec emax.
Definition eqb : double -> double -> bool := SFeqb.
Definition ltb : double -> double -> bool := SFltb.

Definition is_finite (f : double) : bool :=
  match f with
  | S754_zero _ | S754_finite _ _ _ => true
  | _ => false
  end.

Definition is_nan (f : double) : bool :=
  match f with S754_nan => true | _ => false end.

(** [estimateEnergyConsumption], lines 124-126. *)
Definition estimateEnergyConsumption (executionTime cpuPower : double) : double :=
  mul executionTime cpuPower.

End F64.

(** ** Auxiliary definitions *)

Import MemoryManager.

Definition Zrange (lo : Z) (n : nat) : list Z :=
  map (fun i => lo + Z.of_nat i) (seq 0 n).

Definition bytes : list Z := Zrange 0 256.

Definition sign_bit (s : bool) : Z := if s then 1 else 0.

(** What the constructor's packing expression leaves in the three fields. *)
Definition pack (sign exponent mant : Z) : Z :=
  Float8.uint8 (Z.lor (Z.lor (Z.shiftl sign 7) (Z.shiftl exponent 3)) mant).

Definition pack_ok (sign exponent mant : Z) : bool :=
  let b := pack sign exponent mant in
  (b =? 128 * sign + 8 * exponent + mant)
  && (Float8.sign_field b =? sign)
  && (Float8.exponent_field b =? exponent)
  && (Float8.mantissa_field b =? mant).

(** The value [operator float] returns, in closed form: for a non-zero
    byte, [(8 + mantissa field) * 2^20 * 2^(exponent field - 30)], that is
    [(1 + mantissa field / 8) * 2^(exponent field - 7)], with the sign bit. *)
Definition decoded (b : Z) : F32.float :=
  if b =? 0 then F32.zero
  else S754_finite (Float8.sign_field b =? 1)
                   (Z.to_pos ((8 + Float8.mantissa_field b) * 2 ^ 20))
                   (Float8.exponent_field b - 30).

Definition sign_of (x : F32.float) : Z :=
  if F32.ltb x F32.zero then 1 else 0.

(** Powers of two as floats: [two_pow k] is [ldexp(1.0f, k)]. *)
Definition two_pow (k : Z) : F32.float := F32.ldexp F32.one k.

(** The mantissa field as the specification words it:
    [floor((m * 2 - 1) * 8)] for [frexp]'s mantissa [m]. *)
Definition spec_mantissa_field (m : F32.float) : option Z :=
  F32.to_int (F32.mul (F32.sub (F32.mul m (F32.of_int 2)) F32.one) (F32.of_int 8)).

(** The binary32 nearest (ties to even) to a rational whose denominator is
    a power of two, as all sums and products of float values are. *)
Definition of_dyadic (q : Q) : F32.float :=
  binary_normalize F32.prec F32.emax (Qnum q) (- Z.log2 (Zpos (Qden q))) false.

(** [add] and [multiply] as the specification words them: unpack both
    operands, take the sum (product) of the two values as numbers, bring it
    to the native float, pack it. *)
Definition spec_add (a b : Z) : option Z :=
  Float8.of_float
    (of_dyadic (F32.to_Q (Float8.to_float a) + F32.to_Q (Float8.to_float b))).

Definition spec_multiply (a b : Z) : option Z :=
  Float8.of_float
    (of_dyadic (F32.to_Q (Float8.to_float a) * F32.to_Q (Float8.to_float b))).

Definition is_zero (f : F32.float) : bool :=
  match f with S754_zero _ => true | _ => false end.

(** Two floats the constructor cannot tell apart: the same datum, or two
    zeros. *)
Definition agrees (f g : F32.float) : bool :=
  F32.same f g || (is_zero f && is_zero g).

(** What is checked of one pair of unpacked operands: the native sum and
    product are finite binary32 data, they are the roundings of the exact
    sum and product, and they are equal to them as numbers. *)
Definition pair_ok (fa fb : F32.float) : bool :=
  let qa := F32.to_Q fa in
  let qb := F32.to_Q fb in
  let s := F32.add fa fb in
  let p := F32.mul fa fb in
  agrees s (of_dyadic (qa + qb)) && agrees p (of_dyadic (qa * qb))
  && (F32.valid s && F32.is_finite s) && (F32.valid p && F32.is_finite p)
  && (Qeq_bool (F32.to_Q s) (qa + qb) && Qeq_bool (F32.to_Q p) (qa * qb)).

(** The pairs [(a, b)] of bytes with [a <= b]. *)
Definition row_ok (a : Z) : bool :=
  let fa := decoded a in
  forallb (fun b => pair_ok fa (decoded b)) (Zrange a (Z.to_nat (256 - a))).

(** What C6 says of one pair of bytes. *)
Definition arithmetic_facts (a b : Z) : Prop :=
  Float8.add a b = spec_add a b
  /\ Float8.mul a b = spec_multiply a b
  /\ (exists r, Float8.add a b = Some r /\ 0 <= r < 256)
  /\ (exists r, Float8.mul a b = Some r /\ 0 <= r < 256)
  /\ (F32.to_Q (F32.add (Float8.to_float a) (Float8.to_float b))
      == F32.to_Q (Float8.to_float a) + F32.to_Q (Float8.to_float b))%Q
  /\ (F32.to_Q (F32.mul (Float8.to_float a) (Float8.to_float b))
      == F32.to_Q (Float8.to_float a) * F32.to_Q (Float8.to_float b))%Q.

Definition is_byte (x : option Z) : bool :=
  match x with
  | Some v => (0 <=? v) && (v <? 256)
  | None => false
  end.

(** The byte the constructor returns for the finite datum with sign [s],
    mantissa [m] and exponent [e], in closed form. *)
Definition closed_form (s : bool) (m : positive) (e : Z) : Z :=
  if e <=? -31 then 0
  else if -15 <=? e then 128 * sign_bit s + 120
  else 128 * sign_bit s + 8 * (e + 31) + Zpos m / 2 ^ 21.

(** The bytes the constructor can return. *)
Definition producible (b : Z) : bool :=
  (b =? 0)
  || ((1 <=? Float8.exponent_field b) && (4 <=? Float8.mantissa_field b))
  || ((Float8.exponent_field b =? 15) && (Float8.mantissa_field b =? 0)).

(** A float that is packed into the producible byte [b]. *)
Definition preimage (b : Z) : F32.float :=
  if b =? 0 then F32.zero
  else if Float8.mantissa_field b =? 0 then
    S754_finite (Float8.sign_field b =? 1) 8388608 (-14)
  else
    S754_finite (Float8.sign_field b =? 1)
                (Z.to_pos (Float8.mantissa_field b * 2 ^ 21))
                (Float8.exponent_field b - 31).

(** The byte that comes back when the value of the byte [b] is packed
    again. *)
Definition repacked (b : Z) : Z :=
  if b =? 0 then 0
  else if Float8.exponent_field b =? 15 then 128 * Float8.sign_field b + 120
  else 128 * Float8.sign_field b + 8 * (Float8.exponent_field b + 1)
       + 4 + Float8.mantissa_field b / 2.

Definition option_Z_eqb (x y : option Z) : bool :=
  match x, y with
  | Some u, Some v => u =? v
  | None, None => true
  | _, _ => false
  end.

(** The byte the write loop stores in slot [j]. *)
Definition packed (j : Z) : Z :=
  match Float8.of_float (F32.of_int j) with
  | Some v => v
  | None => 0
  end.

(** The array after one pass of the write loop. *)
Definition workload_array : list Z := map packed (Zrange 0 1000).

(** One allocation and its release. *)
Definition cycle (size : Z) (t : tracker) : tracker :=
  deallocate size (allocate size t).

(** ** Tactics *)

(** Settle a guard of the constructor, [c] being a [<=?] or [>=?] test whose
    outcome follows from the linear facts at hand. *)
Ltac guard_true c :=
  replace c with true by (rewrite ?Z.geb_leb; symmetry; apply Z.leb_le; lia).

Ltac guard_false c :=
  replace c with false by (rewrite ?Z.geb_leb; symmetry; apply Z.leb_gt; lia).

(** ** Finite ranges of integers *)

Lemma Zrange_In (lo : Z) (n : nat) (z : Z) :
  lo <= z < lo + Z.of_nat n -> In z (Zrange lo n).
Proof.
  intros Hz. unfold Zrange. apply in_map_iff.
  exists (Z.to_nat (z - lo)). split; [lia|].
  apply in_seq. lia.
Qed.

Lemma Zrange_forallb (P : Z -> bool) (lo : Z) (n : nat) :
  forallb P (Zrange lo n) = true ->
  forall z, lo <= z < lo + Z.of_nat n -> P z = true.
Proof.
  intros Hall z Hz. rewrite forallb_forall in Hall.
  apply Hall, Zrange_In, Hz.
Qed.

Lemma bytes_forallb (P : Z -> bool) :
  forallb P bytes = true -> forall b, 0 <= b < 256 -> P b = true.
Proof.
  intros Hall b Hb. apply (Zrange_forallb P 0 256 Hall). simpl. lia.
Qed.

(** ** Binary32 data *)

Lemma digits2_pos_bounds (p : positive) :
  2 ^ (Zpos (digits2_pos p) - 1) <= Zpos p < 2 ^ Zpos (digits2_pos p).
Proof.
  induction p as [p IH | p IH |]; cbn [digits2_pos].
  - rewrite Pos2Z.inj_succ.
    replace (Z.succ (Zpos (digits2_pos p)) - 1) with (Z.succ (Zpos (digits2_pos p) - 1)) by lia.
    rewrite !Z.pow_succ_r by lia. lia.
  - rewrite Pos2Z.inj_succ.
    replace (Z.succ (Zpos (digits2_pos p)) - 1) with (Z.succ (Zpos (digits2_pos p) - 1)) by lia.
    rewrite !Z.pow_succ_r by lia. lia.
  - cbn. lia.
Qed.

(** A valid finite binary32 is either normal (24 significant bits) or
    subnormal (fewer bits, at the least exponent). *)
Lemma valid_finite_cases (s : bool) (m : positive) (e : Z) :
  F32.valid (S754_finite s m e) = true ->
  (Zpos (digits2_pos m) = 24 /\ -149 <= e <= 104) \/
  (Zpos (digits2_pos m) < 24 /\ e = -149).
Proof.
  unfold F32.valid, valid_binary, bounded, canonical_mantissa, fexp, emin,
    F32.prec, F32.emax.
  intros H. apply andb_true_iff in H as [Hc He].
  apply Z.eqb_eq in Hc. apply Z.leb_le in He. lia.
Qed.

(** [mantissa * (1 << MANT_BITS)] is exact on a normalised mantissa: the
    product only moves the exponent. *)
Lemma frexp_mantissa_times_8 (m : positive) :
  digits2_pos m = 24%positive ->
  F32.mul (S754_finite false m (-24)) (F32.of_int (Z.shiftl 1 Float8.MANT_BITS))
  = S754_finite false m (-21).
Proof.
  intros Hd.
  change (F32.of_int (Z.shiftl 1 Float8.MANT_BITS)) with (S754_finite false 8388608 (-20)).
  unfold F32.mul, SFmul. rewrite Pos.mul_comm.
  cbn [Pos.mul xorb Z.add Z.pos_sub Z.opp Pos.add Pos.succ Pos.pred_double Z.succ_double Z.pred_double Z.double].
  unfold binary_round_aux, shr_fexp.
  cbn [Zdigits2 digits2_pos]. rewrite Hd.
  cbn. rewrite Hd. reflexivity.
Qed.

Lemma normal_mantissa_bounds (m : positive) :
  digits2_pos m = 24%positive -> 4 <= Zpos m / 2 ^ 21 <= 7.
Proof.
  intros Hd. pose proof (digits2_pos_bounds m) as Hb. rewrite Hd in Hb.
  change (2 ^ (24 - 1)) with (4 * 2 ^ 21) in Hb.
  change (2 ^ 24) with (8 * 2 ^ 21) in Hb.
  split.
  - apply Z.div_le_lower_bound; lia.
  - enough (Zpos m / 2 ^ 21 < 8) by lia.
    apply Z.div_lt_upper_bound; lia.
Qed.

(** The truncating cast of the scaled mantissa. *)
Lemma to_int_scaled_mantissa (m : positive) :
  digits2_pos m = 24%positive ->
  F32.to_int (S754_finite false m (-21)) = Some (Zpos m / 2 ^ 21).
Proof.
  intros Hd. pose proof (normal_mantissa_bounds m Hd) as Hb.
  unfold F32.to_int, cond_Zopp.
  change (Z.shiftl (Zpos m) (-21)) with (Z.shiftr (Zpos m) 21).
  rewrite Z.shiftr_div_pow2 by lia.
  unfold F32.INT_MIN, F32.INT_MAX.
  replace (- 2 ^ 31 <=? Zpos m / 2 ^ 21) with true by (symmetry; apply Z.leb_le; lia).
  replace (Zpos m / 2 ^ 21 <=? 2 ^ 31 - 1) with true by (symmetry; apply Z.leb_le; lia).
  reflexivity.
Qed.

(** The constructor on a normal binary32 datum, branch by branch. *)
Lemma of_float_normal_datum (s : bool) (m : positive) (e : Z) :
  digits2_pos m = 24%positive ->
  Float8.of_float (S754_finite s m e) =
    let exponent := e + 24 + Float8.BIAS in
    if exponent <=? 0 then Some 0
    else if exponent >=? 16 then
      Some (Float8.uint8 (Z.lor (Z.shiftl (sign_bit s) 7) 120))
    else
      Some (Float8.uint8 (Z.lor (Z.lor (Z.shiftl (sign_bit s) 7) (Z.shiftl exponent 3))
                                (Zpos m / 2 ^ 21))).
Proof.
  intros Hd. unfold Float8.of_float.
  change (F32.of_int 0) with (S754_zero false).
  replace (F32.eqb (S754_finite s m e) (S754_zero false)) with false
    by (destruct s; reflexivity).
  replace (F32.ltb (S754_finite s m e) (S754_zero false)) with s
    by (destruct s; reflexivity).
  cbn [F32.abs SFabs F32.frexp SFfrexp]. rewrite Hd.
  change (F32.prec <=? 24) with true. cbv iota.
  change (- F32.prec) with (-24). change F32.prec with 24.
  rewrite frexp_mantissa_times_8, to_int_scaled_mantissa by exact Hd.
  destruct s; reflexivity.
Qed.

(** The constructor on a subnormal binary32 datum: always the zero byte. *)
Lemma of_float_subnormal_datum (s : bool) (m : positive) :
  Zpos (digits2_pos m) < 24 ->
  Float8.of_float (S754_finite s m (-149)) = Some 0.
Proof.
  intros Hd. unfold Float8.of_float.
  change (F32.of_int 0) with (S754_zero false).
  replace (F32.eqb (S754_finite s m (-149)) (S754_zero false)) with false
    by (destruct s; reflexivity).
  cbn [F32.abs SFabs F32.frexp SFfrexp].
  replace (F32.prec <=? Zpos (digits2_pos m)) with false
    by (symmetry; apply Z.leb_gt; exact Hd).
  cbv iota.
  replace (-149 + F32.prec - (F32.prec - Zpos (digits2_pos m)) + Float8.BIAS <=? 0)
    with true; [reflexivity|].
  symmetry. apply Z.leb_le. unfold F32.prec, Float8.BIAS. lia.
Qed.

Lemma biased_exponent_normal (s : bool) (m : positive) (e : Z) :
  digits2_pos m = 24%positive ->
  Float8.biased_exponent (S754_finite s m e) = Some (e + 31).
Proof.
  intros Hd. unfold Float8.biased_exponent.
  cbn [F32.abs SFabs F32.frexp SFfrexp]. rewrite Hd.
  change (F32.prec <=? 24) with true. cbv iota.
  unfold F32.prec, Float8.BIAS. f_equal. lia.
Qed.

Lemma biased_exponent_subnormal (s : bool) (m : positive) :
  Zpos (digits2_pos m) < 24 ->
  Float8.biased_exponent (S754_finite s m (-149)) =
    Some (Zpos (digits2_pos m) - 142).
Proof.
  intros Hd. unfold Float8.biased_exponent.
  cbn [F32.abs SFabs F32.frexp SFfrexp].
  replace (F32.prec <=? Zpos (digits2_pos m)) with false
    by (symmetry; apply Z.leb_gt; exact Hd).
  cbv iota. unfold F32.prec, Float8.BIAS. f_equal. lia.
Qed.

(** ** Tables over the 256 bytes *)

Lemma same_eq (f g : F32.float) : F32.same f g = true -> f = g.
Proof.
  destruct f as [s | s | | s m e], g as [t | t | | t n k]; cbn;
    try discriminate; try reflexivity.
  - intros H. apply Bool.eqb_prop in H. now subst.
  - intros H. apply Bool.eqb_prop in H. now subst.
  - intros H. apply andb_true_iff in H as [H He].
    apply andb_true_iff in H as [Hs Hm].
    apply Bool.eqb_prop in Hs. apply Pos.eqb_eq in Hm. apply Z.eqb_eq in He.
    now subst.
Qed.

Lemma pack_table :
  forallb (fun s => forallb (fun e => forallb (pack_ok s e) (Zrange 0 8))
                            (Zrange 0 16)) (Zrange 0 2) = true.
Proof. vm_compute. reflexivity. Qed.

Lemma pack_fields (sign exponent mant : Z) :
  0 <= sign < 2 -> 0 <= exponent < 16 -> 0 <= mant < 8 ->
  let b := pack sign exponent mant in
  b = 128 * sign + 8 * exponent + mant
  /\ Float8.sign_field b = sign
  /\ Float8.exponent_field b = exponent
  /\ Float8.mantissa_field b = mant.
Proof.
  intros Hs He Hm.
  pose proof (Zrange_forallb _ 0 2 pack_table sign Hs) as H1. cbv beta in H1.
  pose proof (Zrange_forallb _ 0 16 H1 exponent He) as H2. cbv beta in H2.
  pose proof (Zrange_forallb _ 0 8 H2 mant Hm) as H3.
  unfold pack_ok in H3.
  repeat (apply andb_true_iff in H3 as [H3 ?]).
  cbv zeta. repeat split; now apply Z.eqb_eq.
Qed.

Lemma to_float_table :
  forallb (fun b => F32.same (Float8.to_float b) (decoded b)) bytes = true.
Proof. vm_compute. reflexivity. Qed.

Lemma to_float_decoded (b : Z) :
  0 <= b < 256 -> Float8.to_float b = decoded b.
Proof.
  intros Hb. apply same_eq.
  exact (bytes_forallb _ to_float_table b Hb).
Qed.

Lemma to_float_finite (b : Z) :
  0 <= b < 256 -> F32.is_finite (Float8.to_float b) = true.
Proof.
  intros Hb. rewrite to_float_decoded by exact Hb.
  unfold decoded. destruct (b =? 0); reflexivity.
Qed.

(** ** The constructor, branch by branch, on any well-formed finite input *)

Lemma of_float_zero (s : bool) : Float8.of_float (S754_zero s) = Some 0.
Proof. destruct s; reflexivity. Qed.

Lemma digits_24 (m : positive) :
  Zpos (digits2_pos m) = 24 -> digits2_pos m = 24%positive.
Proof. intros H. now injection H. Qed.

Lemma sign_of_finite (s : bool) (m : positive) (e : Z) :
  sign_of (S754_finite s m e) = sign_bit s.
Proof. destruct s; reflexivity. Qed.

(** Underflow branch, line 31. *)
Lemma of_float_underflow (x : F32.float) (E : Z) :
  F32.valid x = true -> F32.is_finite x = true ->
  Float8.biased_exponent x = Some E -> E <= 0 ->
  Float8.of_float x = Some 0.
Proof.
  intros Hv Hf HE Hle.
  destruct x as [s | s | | s m e]; try discriminate Hf.
  - apply of_float_zero.
  - destruct (valid_finite_cases s m e Hv) as [[Hd He] | [Hd He]].
    + apply digits_24 in Hd.
      rewrite biased_exponent_normal in HE by exact Hd.
      injection HE as HE. rewrite of_float_normal_datum by exact Hd.
      cbv zeta. unfold Float8.BIAS.
      guard_true (e + 24 + 7 <=? 0).
      reflexivity.
    + subst e. now apply of_float_subnormal_datum.
Qed.

(** Overflow branch, lines 33-34. *)
Lemma of_float_overflow (x : F32.float) (E : Z) :
  F32.valid x = true -> F32.is_finite x = true ->
  Float8.biased_exponent x = Some E -> 16 <= E ->
  Float8.of_float x = Some (128 * sign_of x + 120).
Proof.
  intros Hv Hf HE Hge.
  destruct x as [s | s | | s m e]; try discriminate Hf.
  - cbn in HE. injection HE as HE. unfold Float8.BIAS in HE. lia.
  - destruct (valid_finite_cases s m e Hv) as [[Hd He] | [Hd He]].
    + apply digits_24 in Hd.
      rewrite biased_exponent_normal in HE by exact Hd.
      injection HE as HE. rewrite of_float_normal_datum by exact Hd.
      cbv zeta. unfold Float8.BIAS.
      guard_false (e + 24 + 7 <=? 0).
      guard_true (e + 24 + 7 >=? 16).
      rewrite sign_of_finite. destruct s; reflexivity.
    + subst e. rewrite biased_exponent_subnormal in HE by exact Hd.
      assert (Zpos (digits2_pos m) - 142 = E) by congruence. lia.
Qed.

(** Normal branch, lines 35-38: the mantissa field is the truncation of
    eight times [frexp]'s mantissa, and the three fields are packed at bits
    7, 6-3 and 2-0. *)
Lemma of_float_normal_path (x : F32.float) (E : Z) :
  F32.valid x = true -> F32.is_finite x = true -> F32.eqb x F32.zero = false ->
  Float8.biased_exponent x = Some E -> 0 < E < 16 ->
  exists mantissa q,
    F32.frexp (F32.abs x) = Some (mantissa, E - Float8.BIAS)
    /\ F32.to_int (F32.mul mantissa (F32.of_int 8)) = Some q
    /\ 4 <= q <= 7
    /\ Float8.of_float x = Some (pack (sign_of x) E q).
Proof.
  intros Hv Hf Hnz HE Hrange.
  destruct x as [s | s | | s m e]; try discriminate Hf.
  - destruct s; discriminate Hnz.
  - destruct (valid_finite_cases s m e Hv) as [[Hd He] | [Hd He]].
    + apply digits_24 in Hd.
      rewrite biased_exponent_normal in HE by exact Hd.
      injection HE as HE.
      exists (S754_finite false m (-24)), (Zpos m / 2 ^ 21).
      split; [|split; [|split]].
      * cbn [F32.abs SFabs F32.frexp SFfrexp]. rewrite Hd.
        change (F32.prec <=? 24) with true. cbv iota.
        unfold F32.prec, Float8.BIAS.
        replace (E - 7) with (e + 24) by lia. reflexivity.
      * change (F32.of_int 8) with (F32.of_int (Z.shiftl 1 Float8.MANT_BITS)).
        rewrite frexp_mantissa_times_8 by exact Hd.
        now apply to_int_scaled_mantissa.
      * now apply normal_mantissa_bounds.
      * rewrite of_float_normal_datum by exact Hd.
        cbv zeta. unfold Float8.BIAS.
        guard_false (e + 24 + 7 <=? 0).
        guard_false (e + 24 + 7 >=? 16).
        rewrite sign_of_finite. unfold pack.
        replace (e + 24 + 7) with E by lia. reflexivity.
    + subst e. rewrite biased_exponent_subnormal in HE by exact Hd.
      assert (Zpos (digits2_pos m) - 142 = E) by congruence. lia.
Qed.

(** Every well-formed finite input has a biased exponent. *)
Lemma biased_exponent_finite (x : F32.float) :
  F32.is_finite x = true -> exists E, Float8.biased_exponent x = Some E.
Proof.
  destruct x as [s | s | | s m e]; try discriminate; intros _.
  - eexists. reflexivity.
  - unfold Float8.biased_exponent. cbn [F32.abs SFabs F32.frexp].
    destruct (SFfrexp F32.prec F32.emax (S754_finite false m e)) as [f k].
    eexists. reflexivity.
Qed.

Lemma sign_of_range (x : F32.float) : 0 <= sign_of x < 2.
Proof. unfold sign_of. destruct (F32.ltb x F32.zero); lia. Qed.

(** An input that is not flushed gives a non-zero byte that carries its
    sign bit. *)
Lemma of_float_not_flushed (x : F32.float) (E : Z) :
  F32.valid x = true -> F32.is_finite x = true -> F32.eqb x F32.zero = false ->
  Float8.biased_exponent x = Some E -> 0 < E ->
  exists b, Float8.of_float x = Some b /\ 0 < b < 256
            /\ Float8.sign_field b = sign_of x.
Proof.
  intros Hv Hf Hnz HE Hpos. pose proof (sign_of_range x) as Hs.
  destruct (Z_lt_le_dec E 16) as [Hlt | Hge].
  - destruct (of_float_normal_path x E Hv Hf Hnz HE (conj Hpos Hlt))
      as (mantissa & q & _ & _ & Hq & Hb).
    exists (pack (sign_of x) E q).
    destruct (pack_fields (sign_of x) E q) as (Hval & Hsign & _); try lia.
    repeat split; try assumption; lia.
  - exists (128 * sign_of x + 120). split; [|split].
    + now apply of_float_overflow with (E := E).
    + lia.
    + assert (sign_of x = 0 \/ sign_of x = 1) as [-> | ->] by lia; reflexivity.
Qed.

(** The constructor is total on well-formed finite inputs and returns a
    byte. *)
Lemma of_float_total (x : F32.float) :
  F32.valid x = true -> F32.is_finite x = true ->
  exists b, Float8.of_float x = Some b /\ 0 <= b < 256.
Proof.
  intros Hv Hf.
  destruct (F32.eqb x F32.zero) eqn:Hz.
  - exists 0. split; [|lia].
    unfold Float8.of_float. change (F32.of_int 0) with F32.zero.
    now rewrite Hz.
  - destruct (biased_exponent_finite x Hf) as [E HE].
    destruct (Z_lt_le_dec 0 E) as [Hpos | Hle].
    + destruct (of_float_not_flushed x E Hv Hf Hz HE Hpos) as (b & Hb & Hr & _).
      exists b. split; [assumption | lia].
    + exists 0. split; [|lia]. now apply of_float_underflow with (E := E).
Qed.

(** The sign of a decoded non-zero byte is its bit 7. *)
Lemma to_float_sign (b : Z) :
  0 < b < 256 ->
  (Float8.sign_field b = 0 -> F32.ltb F32.zero (Float8.to_float b) = true)
  /\ (Float8.sign_field b = 1 -> F32.ltb (Float8.to_float b) F32.zero = true).
Proof.
  intros Hb. rewrite to_float_decoded by lia. unfold decoded.
  replace (b =? 0) with false by (symmetry; apply Z.eqb_neq; lia).
  split; intros ->; reflexivity.
Qed.

(** Comparing a normal datum with [2^-7] decides the underflow guard. *)
Lemma normal_below_threshold (m : positive) (e : Z) :
  digits2_pos m = 24%positive ->
  F32.ltb (S754_finite false m e) (two_pow (-7)) = true -> e + 31 <= 0.
Proof.
  intros Hd. change (two_pow (-7)) with (S754_finite false 8388608 (-30)).
  unfold F32.ltb, SFltb, SFcompare.
  destruct (Z.compare_spec e (-30)) as [He | He | He]; try discriminate; try lia.
  pose proof (digits2_pos_bounds m) as Hb. rewrite Hd in Hb.
  change (2 ^ (24 - 1)) with (Zpos 8388608) in Hb.
  destruct (Pos.compare_cont Eq m 8388608) eqn:Hc; try discriminate.
  apply Pos.compare_lt_iff, Pos2Z.pos_lt_pos in Hc.
  intros _. exfalso. apply (Z.lt_irrefl (Zpos m)).
  eapply Z.lt_le_trans; [exact Hc | apply Hb].
Qed.

Lemma normal_above_threshold (m : positive) (e : Z) :
  F32.leb (two_pow (-7)) (S754_finite false m e) = true -> 0 < e + 31.
Proof.
  change (two_pow (-7)) with (S754_finite false 8388608 (-30)).
  unfold F32.leb, SFleb, SFcompare.
  destruct (Z.compare_spec (-30) e) as [He | He | He]; try discriminate; lia.
Qed.

Lemma normal_below_neg_threshold (m : positive) (e : Z) :
  F32.leb (S754_finite true m e) (F32.opp (two_pow (-7))) = true -> 0 < e + 31.
Proof.
  change (F32.opp (two_pow (-7))) with (S754_finite true 8388608 (-30)).
  unfold F32.leb, SFleb, SFcompare.
  destruct (Z.compare_spec e (-30)) as [He | He | He]; try discriminate; lia.
Qed.

(** ** The size of the round-trip error *)

Lemma to_Q_abs (s : bool) (k : positive) (e : Z) :
  (Qabs (F32.to_Q (S754_finite s k e)) == inject_Z (Zpos k) * 2 ^ e)%Q.
Proof.
  unfold F32.to_Q. rewrite Qabs_Qmult.
  assert (Hp : (Qabs (2 ^ e) == 2 ^ e)%Q)
    by (apply Qabs_pos, Qpower_0_le; discriminate).
  rewrite Hp. destruct s; reflexivity.
Qed.

(** On the normal path the unpacked magnitude is more than 15/8 of the
    input's: the byte keeps [frexp]'s mantissa with its leading bit
    ([floor(8 m)], between 4 and 7) and [operator float] adds the implicit
    one on top of it. *)
Lemma roundtrip_overshoots (x : F32.float) (E : Z) :
  F32.valid x = true -> F32.is_finite x = true -> F32.eqb x F32.zero = false ->
  Float8.biased_exponent x = Some E -> 0 < E < 16 ->
  exists b, Float8.of_float x = Some b
    /\ ((15 # 8) * Qabs (F32.to_Q x) < Qabs (F32.to_Q (Float8.to_float b)))%Q.
Proof.
  intros Hv Hf Hnz HE Hrange.
  destruct x as [s | s | | s m e]; try discriminate Hf.
  { destruct s; discriminate Hnz. }
  destruct (valid_finite_cases s m e Hv) as [[Hd He] | [Hd He]].
  2:{ subst e. rewrite biased_exponent_subnormal in HE by exact Hd.
      assert (Zpos (digits2_pos m) - 142 = E) by congruence. lia. }
  apply digits_24 in Hd.
  rewrite biased_exponent_normal in HE by exact Hd. injection HE as HE.
  pose proof (normal_mantissa_bounds m Hd) as Hq.
  set (q := Zpos m / 2 ^ 21) in *.
  exists (pack (sign_bit s) E q). split.
  - rewrite of_float_normal_datum by exact Hd. cbv zeta. unfold Float8.BIAS.
    guard_false (e + 24 + 7 <=? 0).
    guard_false (e + 24 + 7 >=? 16).
    unfold pack. replace (e + 24 + 7) with E by lia. reflexivity.
  - destruct (pack_fields (sign_bit s) E q) as (Hval & Hsign & Hexp & Hmant);
      try lia; [destruct s; cbn; lia|].
    assert (Hsb : 0 <= sign_bit s < 2) by (destruct s; cbn; lia).
    rewrite to_float_decoded by lia. unfold decoded.
    replace (pack (sign_bit s) E q =? 0) with false
      by (symmetry; apply Z.eqb_neq; lia).
    rewrite Hmant, Hexp, !to_Q_abs.
    rewrite Z2Pos.id by lia.
    replace (E - 30) with (e + 1) by lia.
    rewrite Qpower_plus by discriminate.
    change ((2 ^ 1)%Q) with (2%Q).
    rewrite (Qmult_comm (2 ^ e) 2), !Qmult_assoc. apply Qmult_lt_compat_r.
    + apply Qpower_0_lt. reflexivity.
    + assert (Hm : Zpos m < 2 ^ 21 * Z.succ q)
        by (apply Z.mul_succ_div_gt; lia).
      change (2 ^ 21) with 2097152 in Hm. change (2 ^ 20) with 1048576.
      unfold Qlt, Qmult, inject_Z. cbn [Qnum Qden].
      change (Zpos (1 * 1)) with 1. change (Zpos (8 * 1)) with 8. lia.
Qed.

(** ** The claims about the codec *)

(** C7. Packing [0.0f] gives the zero byte, and the zero byte unpacks to
    exactly [0.0f] (the positive zero). *)
Theorem zero_fixed_point :
  Float8.of_float F32.zero = Some 0 /\ Float8.to_float 0 = F32.zero.
Proof. split; reflexivity. Qed.

(** C8. Every well-formed finite input is packed into a byte, and that byte
    unpacks to a finite float: neither a NaN nor an infinity.  In fact no
    byte at all unpacks to a NaN or an infinity. *)
Theorem encoded_byte_decodes_finite (x : F32.float) :
  F32.valid x = true -> F32.is_finite x = true ->
  (exists b, Float8.of_float x = Some b /\ 0 <= b < 256
             /\ F32.is_finite (Float8.to_float b) = true
             /\ F32.is_nan (Float8.to_float b) = false
             /\ F32.is_infinite (Float8.to_float b) = false)
  /\ (forall b, 0 <= b < 256 -> F32.is_finite (Float8.to_float b) = true).
Proof.
  intros Hv Hf. split.
  - destruct (of_float_total x Hv Hf) as (b & Hb & Hr).
    exists b. pose proof (to_float_finite b Hr) as Hfin.
    repeat split; try assumption; try lia;
      destruct (Float8.to_float b); try discriminate Hfin; reflexivity.
  - exact to_float_finite.
Qed.

Lemma encoded_byte_decodes_finite_witness :
  F32.valid (F32.of_int 5) = true /\ F32.is_finite (F32.of_int 5) = true
  /\ exists b, Float8.of_float (F32.of_int 5) = Some b
               /\ F32.is_finite (Float8.to_float b) = true.
Proof.
  split; [reflexivity | split; [reflexivity |]].
  destruct (encoded_byte_decodes_finite (F32.of_int 5) eq_refl eq_refl)
    as [(b & Hb & _ & Hfin & _) _].
  exists b. split; assumption.
Defined.

(** C10. On the normal path (non-zero input, biased exponent strictly
    between 0 and 16) the mantissa field of the packed byte is 4, 5, 6 or 7,
    never 0 to 3, the sign and exponent fields hold the sign and the biased
    exponent, and the significand [1 + field/8] that [operator float]
    rebuilds from the byte is at least 1.5. *)
Theorem normal_path_mantissa_field (x : F32.float) (E : Z) :
  F32.valid x = true -> F32.is_finite x = true -> F32.eqb x F32.zero = false ->
  Float8.biased_exponent x = Some E -> 0 < E < 16 ->
  exists b, Float8.of_float x = Some b
    /\ 4 <= Float8.mantissa_field b <= 7
    /\ Float8.exponent_field b = E
    /\ Float8.sign_field b = sign_of x
    /\ (3 # 2 <= F32.to_Q (Float8.significand b))%Q.
Proof.
  intros Hv Hf Hnz HE Hrange. pose proof (sign_of_range x) as Hs.
  destruct (of_float_normal_path x E Hv Hf Hnz HE Hrange)
    as (mantissa & q & _ & _ & Hq & Hb).
  exists (pack (sign_of x) E q).
  destruct (pack_fields (sign_of x) E q) as (_ & Hsign & Hexp & Hmant); try lia.
  repeat split; try assumption; try lia.
  unfold Float8.significand. rewrite Hmant.
  assert (q = 4 \/ q = 5 \/ q = 6 \/ q = 7) as [-> | [-> | [-> | ->]]] by lia;
    vm_compute; discriminate.
Qed.

Lemma normal_path_mantissa_field_witness :
  F32.valid (F32.of_int 10) = true
  /\ F32.is_finite (F32.of_int 10) = true
  /\ F32.eqb (F32.of_int 10) F32.zero = false
  /\ Float8.biased_exponent (F32.of_int 10) = Some 11
  /\ 0 < 11 < 16
  /\ exists b, Float8.of_float (F32.of_int 10) = Some b
               /\ 4 <= Float8.mantissa_field b <= 7.
Proof.
  split; [reflexivity | split; [reflexivity | split; [reflexivity |]]].
  split; [reflexivity | split; [split; reflexivity |]].
  destruct (normal_path_mantissa_field (F32.of_int 10) 11)
    as (b & Hb & Hm & _); try reflexivity; [split; reflexivity |].
  exists b. split; assumption.
Defined.

(** C2. At [x = 1.0f] ([frexp] gives m = 0.5, e = 1, biased exponent 8) the
    constructor returns the byte 68 = 0b0_1000_100: sign in bit 7 and biased
    exponent in bits 6-3 as claimed, but mantissa field 4 = floor(m * 8),
    where [floor((m * 2 - 1) * 8)] is 0. *)
Theorem mantissa_field_of_one :
  F32.frexp (F32.abs F32.one) = Some (two_pow (-1), 1)
  /\ Float8.biased_exponent F32.one = Some 8
  /\ Float8.of_float F32.one = Some 68
  /\ Float8.sign_field 68 = 0
  /\ Float8.exponent_field 68 = 8
  /\ Float8.mantissa_field 68 = 4
  /\ spec_mantissa_field (two_pow (-1)) = Some 0.
Proof. repeat split; reflexivity. Qed.

(** C1. At [x = 1.0f], well inside the normal range, the packed byte is 68
    and it unpacks to [3.0f]: the round trip is off by 2, sixteen times the
    claimed bound of 1/8 of the magnitude. *)
Theorem roundtrip_of_one_is_three :
  Float8.of_float F32.one = Some 68
  /\ Float8.to_float 68 = F32.of_int 3
  /\ (F32.to_Q (Float8.to_float 68) - F32.to_Q F32.one == 2)%Q
  /\ ~ (Qabs (F32.to_Q (Float8.to_float 68) - F32.to_Q F32.one)
        <= (1 # 8) * Qabs (F32.to_Q F32.one))%Q.
Proof.
  split; [reflexivity | split; [reflexivity | split; [reflexivity |]]].
  vm_compute. intros H. apply H. reflexivity.
Qed.

(** C3 as stated fails at [x = 512.0f]: the biased exponent is 17, the byte
    is 120 = 0b0_1111_000, and it unpacks to 256, not to 480. *)
Lemma saturation_is_not_480 :
  F32.valid (F32.of_int 512) = true
  /\ Float8.biased_exponent (F32.of_int 512) = Some 17
  /\ Float8.of_float (F32.of_int 512) = Some 120
  /\ (F32.to_Q (Float8.to_float 120) == 256)%Q
  /\ ~ (F32.to_Q (Float8.to_float 120) == 480)%Q.
Proof.
  repeat split; try reflexivity. vm_compute. discriminate.
Qed.

(** C3, amended. Every finite input whose biased exponent is 16 or more is
    packed as sign bit, exponent field 15, mantissa field 0, and unpacks to
    256 = 1.0 * 2^8 with the sign of the input: a finite non-zero value. *)
Theorem overflow_saturates_to_256 (x : F32.float) (E : Z) :
  F32.valid x = true -> F32.is_finite x = true ->
  Float8.biased_exponent x = Some E -> 16 <= E ->
  exists b, Float8.of_float x = Some b
    /\ Float8.exponent_field b = 15 /\ Float8.mantissa_field b = 0
    /\ Float8.to_float b =
         (if F32.ltb x F32.zero then F32.of_int (-256) else F32.of_int 256)
    /\ F32.is_finite (Float8.to_float b) = true
    /\ F32.eqb (Float8.to_float b) F32.zero = false.
Proof.
  intros Hv Hf HE Hge.
  exists (128 * sign_of x + 120). split.
  - now apply of_float_overflow with (E := E).
  - unfold sign_of. destruct (F32.ltb x F32.zero); repeat split; reflexivity.
Qed.

Lemma overflow_saturates_to_256_witness :
  F32.valid (F32.of_int (-1000)) = true
  /\ F32.is_finite (F32.of_int (-1000)) = true
  /\ Float8.biased_exponent (F32.of_int (-1000)) = Some 17
  /\ 16 <= 17
  /\ exists b, Float8.of_float (F32.of_int (-1000)) = Some b
               /\ Float8.to_float b = F32.of_int (-256).
Proof.
  split; [reflexivity | split; [reflexivity | split; [reflexivity | split]]].
  - discriminate.
  - destruct (overflow_saturates_to_256 (F32.of_int (-1000)) 17)
      as (b & Hb & _ & _ & Hd & _); try reflexivity; try discriminate.
    exists b. split; assumption.
Defined.

(** C4 as stated fails at [x = 2^-7]: it is non-zero and below [2^-6], yet it
    is packed as the byte 12 = 0b0_0001_100, not as the zero byte. *)
Lemma no_flush_at_2_pow_minus_7 :
  F32.valid (two_pow (-7)) = true
  /\ F32.eqb (two_pow (-7)) F32.zero = false
  /\ F32.ltb (F32.abs (two_pow (-7))) (two_pow (-6)) = true
  /\ Float8.biased_exponent (two_pow (-7)) = Some 1
  /\ Float8.of_float (two_pow (-7)) = Some 12.
Proof. repeat split; reflexivity. Qed.

(** C4, amended. Every finite input of magnitude below [2^-7] is packed as
    the zero byte. *)
Theorem flush_to_zero_below_2_pow_minus_7 (x : F32.float) :
  F32.valid x = true -> F32.is_finite x = true ->
  F32.ltb (F32.abs x) (two_pow (-7)) = true ->
  Float8.of_float x = Some 0.
Proof.
  intros Hv Hf Hlt.
  destruct x as [s | s | | s m e]; try discriminate Hf.
  - apply of_float_zero.
  - destruct (valid_finite_cases s m e Hv) as [[Hd He] | [Hd He]].
    + apply digits_24 in Hd.
      apply of_float_underflow with (E := e + 31); try assumption.
      * now apply biased_exponent_normal.
      * now apply normal_below_threshold with (m := m).
    + subst e. now apply of_float_subnormal_datum.
Qed.

Lemma flush_to_zero_below_2_pow_minus_7_witness :
  F32.valid (two_pow (-8)) = true
  /\ F32.is_finite (two_pow (-8)) = true
  /\ F32.ltb (F32.abs (two_pow (-8))) (two_pow (-7)) = true
  /\ Float8.of_float (two_pow (-8)) = Some 0.
Proof.
  split; [reflexivity | split; [reflexivity | split; [reflexivity |]]].
  apply (flush_to_zero_below_2_pow_minus_7 (two_pow (-8))); reflexivity.
Defined.

(** C5 as stated fails at [x = 2^-8]: it is positive, it is flushed to the
    zero byte, and the zero byte unpacks to [0.0f], which is not positive. *)
Lemma positive_input_decodes_to_zero :
  F32.valid (two_pow (-8)) = true
  /\ F32.ltb F32.zero (two_pow (-8)) = true
  /\ Float8.of_float (two_pow (-8)) = Some 0
  /\ Float8.to_float 0 = F32.zero
  /\ F32.ltb F32.zero (Float8.to_float 0) = false.
Proof. repeat split; reflexivity. Qed.

(** On this code the guard flushes exactly the magnitudes below [2^-7]:
    for every finite [x >= 2^-7] the round trip is positive, and for every
    finite [x <= -2^-7] it is negative. *)
Lemma sign_preserved_from_2_pow_minus_7 (x : F32.float) :
  F32.valid x = true -> F32.is_finite x = true ->
  (F32.leb (two_pow (-7)) x = true ->
   exists b, Float8.of_float x = Some b
             /\ F32.ltb F32.zero (Float8.to_float b) = true)
  /\ (F32.leb x (F32.opp (two_pow (-7))) = true ->
      exists b, Float8.of_float x = Some b
                /\ F32.ltb (Float8.to_float b) F32.zero = true).
Proof.
  intros Hv Hf.
  destruct x as [s | s | | s m e]; try discriminate Hf.
  { split; intros H; destruct s; discriminate H. }
  assert (Hnz : F32.eqb (S754_finite s m e) F32.zero = false)
    by (destruct s; reflexivity).
  destruct (valid_finite_cases s m e Hv) as [[Hd He] | [Hd He]].
  - apply digits_24 in Hd.
    pose proof (biased_exponent_normal s m e Hd) as HE.
    split; intros Hle.
    + destruct s; [discriminate Hle|].
      apply normal_above_threshold in Hle.
      destruct (of_float_not_flushed _ _ Hv Hf Hnz HE Hle) as (b & Hb & Hr & Hs).
      exists b. split; [assumption|]. now apply to_float_sign.
    + destruct s; [|discriminate Hle].
      apply normal_below_neg_threshold in Hle. rename Hle into Hpos.
      destruct (of_float_not_flushed _ _ Hv Hf Hnz HE Hpos) as (b & Hb & Hr & Hs).
      exists b. split; [assumption|]. now apply to_float_sign.
  - subst e. split; intros Hle.
    + destruct s; discriminate Hle.
    + destruct s; discriminate Hle.
Qed.

(** C5, amended. For every finite input that the underflow guard does not
    flush (biased exponent at least 1), the round trip has the sign of the
    input: positive for [x > 0], negative for [x < 0]. *)
Theorem sign_preserved_unless_flushed (x : F32.float) (E : Z) :
  F32.valid x = true -> F32.is_finite x = true ->
  Float8.biased_exponent x = Some E -> 0 < E ->
  (F32.ltb F32.zero x = true ->
   exists b, Float8.of_float x = Some b
             /\ F32.ltb F32.zero (Float8.to_float b) = true)
  /\ (F32.ltb x F32.zero = true ->
      exists b, Float8.of_float x = Some b
                /\ F32.ltb (Float8.to_float b) F32.zero = true).
Proof.
  intros Hv Hf HE Hpos.
  destruct x as [s | s | | s m e]; try discriminate Hf.
  { split; intros H; destruct s; discriminate H. }
  assert (Hnz : F32.eqb (S754_finite s m e) F32.zero = false)
    by (destruct s; reflexivity).
  destruct (of_float_not_flushed _ _ Hv Hf Hnz HE Hpos) as (b & Hb & Hr & Hs).
  rewrite sign_of_finite in Hs.
  split; intros Hsign; destruct s; try discriminate Hsign;
    exists b; (split; [exact Hb | now apply to_float_sign]).
Qed.

Lemma sign_preserved_unless_flushed_witness :
  F32.valid (F32.of_int (-3)) = true
  /\ F32.is_finite (F32.of_int (-3)) = true
  /\ Float8.biased_exponent (F32.of_int (-3)) = Some 9
  /\ 0 < 9
  /\ F32.ltb (F32.of_int (-3)) F32.zero = true
  /\ exists b, Float8.of_float (F32.of_int (-3)) = Some b
               /\ F32.ltb (Float8.to_float b) F32.zero = true.
Proof.
  split; [reflexivity | split; [reflexivity | split; [reflexivity |]]].
  split; [reflexivity | split; [reflexivity |]].
  destruct (sign_preserved_unless_flushed (F32.of_int (-3)) 9
              eq_refl eq_refl eq_refl eq_refl) as [_ Hneg].
  exact (Hneg eq_refl).
Defined.

(** ** Arithmetic on packed values *)

Lemma arithmetic_table : forallb row_ok bytes = true.
Proof. vm_compute. reflexivity. Qed.

Lemma pair_ok_bytes (a b : Z) :
  0 <= a -> a <= b -> b < 256 ->
  pair_ok (Float8.to_float a) (Float8.to_float b) = true.
Proof.
  intros Ha Hab Hb.
  assert (Hrow : row_ok a = true)
    by (apply (bytes_forallb row_ok arithmetic_table); lia).
  unfold row_ok in Hrow. cbv zeta in Hrow.
  rewrite !to_float_decoded by lia.
  apply (Zrange_forallb _ _ _ Hrow b). lia.
Qed.

Lemma agrees_of_float (f g : F32.float) :
  agrees f g = true -> Float8.of_float f = Float8.of_float g.
Proof.
  unfold agrees. intros H. apply orb_true_iff in H as [H | H].
  - now rewrite (same_eq f g H).
  - apply andb_true_iff in H as [Hf Hg].
    destruct f; try discriminate Hf. destruct g; try discriminate Hg.
    now rewrite !of_float_zero.
Qed.

Lemma F32_add_comm (x y : F32.float) : F32.add x y = F32.add y x.
Proof.
  unfold F32.add, SFadd.
  destruct x as [sx | sx | | sx mx ex], y as [sy | sy | | sy my ey];
    try reflexivity; try (destruct sx, sy; reflexivity).
  rewrite (Z.min_comm ey ex). f_equal. apply Z.add_comm.
Qed.

Lemma F32_mul_comm (x y : F32.float) : F32.mul x y = F32.mul y x.
Proof.
  unfold F32.mul, SFmul.
  destruct x as [sx | sx | | sx mx ex], y as [sy | sy | | sy my ey];
    try reflexivity; try (destruct sx, sy; reflexivity).
  now rewrite (xorb_comm sy sx), (Pos.mul_comm my mx), (Z.add_comm ey ex).
Qed.

Lemma Qplus_comm_eq (x y : Q) : (x + y = y + x)%Q.
Proof.
  unfold Qplus. now rewrite (Z.add_comm (Qnum y * QDen x)), (Pos.mul_comm (Qden y)).
Qed.

Lemma Qmult_comm_eq (x y : Q) : (x * y = y * x)%Q.
Proof.
  unfold Qmult. now rewrite (Z.mul_comm (Qnum y)), (Pos.mul_comm (Qden y)).
Qed.

Lemma arithmetic_facts_ordered (a b : Z) :
  0 <= a -> a <= b -> b < 256 -> arithmetic_facts a b.
Proof.
  intros Ha Hab Hb. pose proof (pair_ok_bytes a b Ha Hab Hb) as H.
  unfold pair_ok in H. cbv zeta in H.
  apply andb_true_iff in H as [H Hq]. apply andb_true_iff in Hq as [Hqs Hqp].
  apply andb_true_iff in H as [H Hp]. apply andb_true_iff in Hp as [Hpv Hpf].
  apply andb_true_iff in H as [H Hs]. apply andb_true_iff in Hs as [Hsv Hsf].
  apply andb_true_iff in H as [Has Hap].
  unfold arithmetic_facts, Float8.add, Float8.mul, spec_add, spec_multiply.
  split; [now apply agrees_of_float|].
  split; [now apply agrees_of_float|].
  split; [now apply of_float_total|].
  split; [now apply of_float_total|].
  split; now apply Qeq_bool_iff.
Qed.

Lemma arithmetic_facts_sym (a b : Z) :
  arithmetic_facts a b -> arithmetic_facts b a.
Proof.
  unfold arithmetic_facts, Float8.add, Float8.mul, spec_add, spec_multiply.
  rewrite (F32_add_comm (Float8.to_float b)), (F32_mul_comm (Float8.to_float b)).
  rewrite (Qplus_comm_eq (F32.to_Q (Float8.to_float b))).
  rewrite (Qmult_comm_eq (F32.to_Q (Float8.to_float b))).
  exact (fun H => H).
Qed.

(** C6. For all bytes [a] and [b], [operator+] returns the packing of the
    sum of the two unpacked values and [operator*] the packing of their
    product, the sum and product being taken in the native float: that
    native result is the rounding of the exact one, it is in fact equal to
    it, and a byte always comes back. *)
Theorem arithmetic_refines_spec (a b : Z) :
  0 <= a < 256 -> 0 <= b < 256 ->
  Float8.add a b = spec_add a b
  /\ Float8.mul a b = spec_multiply a b
  /\ (exists r, Float8.add a b = Some r /\ 0 <= r < 256)
  /\ (exists r, Float8.mul a b = Some r /\ 0 <= r < 256)
  /\ (F32.to_Q (F32.add (Float8.to_float a) (Float8.to_float b))
      == F32.to_Q (Float8.to_float a) + F32.to_Q (Float8.to_float b))%Q
  /\ (F32.to_Q (F32.mul (Float8.to_float a) (Float8.to_float b))
      == F32.to_Q (Float8.to_float a) * F32.to_Q (Float8.to_float b))%Q.
Proof.
  intros Ha Hb. change (arithmetic_facts a b).
  destruct (Z.le_ge_cases a b) as [Hab | Hba].
  - apply arithmetic_facts_ordered; lia.
  - apply arithmetic_facts_sym, arithmetic_facts_ordered; lia.
Qed.

Lemma arithmetic_refines_spec_witness :
  0 <= 80 < 256 /\ 0 <= 84 < 256
  /\ Float8.add 80 84 = spec_add 80 84
  /\ Float8.mul 80 84 = spec_multiply 80 84.
Proof.
  split; [split; [discriminate | reflexivity] |].
  split; [split; [discriminate | reflexivity] |].
  destruct (arithmetic_refines_spec 80 84) as (Hadd & Hmul & _).
  - split; [discriminate | reflexivity].
  - split; [discriminate | reflexivity].
  - split; assumption.
Defined.

(** ** The optimized workload *)

Lemma store_some (data : list Z) (j : nat) (v : Z) :
  (j < length data)%nat ->
  exists data', store data j v = Some data' /\ length data' = length data.
Proof.
  revert j. induction data as [| d rest IH]; intros j Hj; cbn in Hj; [lia|].
  destruct j as [| j'].
  - exists (v :: rest). split; reflexivity.
  - destruct (IH j') as (rest' & Hst & Hlen); [lia|].
    exists (d :: rest'). cbn. rewrite Hst. cbn. split; [reflexivity | now rewrite Hlen].
Qed.

(** Every integer the loop writes is packed into some byte. *)
Lemma small_ints_table :
  forallb (fun j => is_byte (Float8.of_float (F32.of_int j))) (Zrange 0 1000) = true.
Proof. vm_compute. reflexivity. Qed.

Lemma small_int_packs (j : Z) :
  0 <= j < 1000 -> exists v, Float8.of_float (F32.of_int j) = Some v.
Proof.
  intros Hj. pose proof (Zrange_forallb _ 0 1000 small_ints_table j) as H.
  cbv beta in H. destruct (Float8.of_float (F32.of_int j)) as [v |].
  - now exists v.
  - discriminate H. lia.
Qed.

Lemma write_from_some (count : nat) (j : Z) (data : list Z) :
  0 <= j -> j + Z.of_nat count <= 1000 ->
  j + Z.of_nat count <= Z.of_nat (length data) ->
  exists data', write_from count j data = Some data'
                /\ length data' = length data.
Proof.
  revert j data. induction count as [| count IH]; intros j data Hj Hmax Hlen.
  - exists data. split; reflexivity.
  - cbn [write_from].
    destruct (small_int_packs j) as [v Hv]; [lia|]. rewrite Hv. cbn [bind].
    destruct (store_some data (Z.to_nat j) v) as (data1 & Hst & Hl1); [lia|].
    rewrite Hst. cbn [bind].
    destruct (IH (j + 1) data1) as (data2 & Hw & Hl2); try lia.
    exists data2. split; [assumption | congruence].
Qed.

Lemma inner_loop_some (data : list Z) :
  length data = 1000%nat ->
  exists data', inner_loop data = Some data' /\ length data' = 1000%nat.
Proof.
  intros Hlen. destruct (write_from_some 1000 0 data) as (data' & Hw & Hl);
    try lia.
  exists data'. split; [assumption | congruence].
Qed.

(** However often the outer loop runs, the array is still there and still
    has its thousand elements. *)
Lemma outer_loop_some (iterations : N) (data : list Z) :
  length data = 1000%nat ->
  exists data', N.iter iterations (fun d => bind d inner_loop) (Some data) = Some data'
                /\ length data' = 1000%nat.
Proof.
  intros Hlen. induction iterations as [| n IH] using N.peano_ind.
  - exists data. split; [reflexivity | assumption].
  - destruct IH as (data1 & Hit & Hl1).
    rewrite N.iter_succ, Hit. cbn [bind]. now apply inner_loop_some.
Qed.

(** One run of the workload: one [allocate], one [deallocate], both of the
    size of the array as the implementation lays it out.  The number of
    iterations does not occur in the result. *)
Lemma optimized_workload_run (overhead : Z) (iterations : N) (t : tracker) :
  optimized_workload overhead iterations t =
  Some {| totalAllocated := size_t (totalAllocated t + array_bytes overhead 1000);
          totalFreed := size_t (totalFreed t + array_bytes overhead 1000);
          calls := calls t ++ [Allocate (array_bytes overhead 1000);
                               Deallocate (array_bytes overhead 1000)] |}.
Proof.
  unfold optimized_workload, array_new.
  change (Float8.of_float F32.zero) with (Some 0). cbn [bind].
  destruct (outer_loop_some iterations (repeat 0 1000)) as (data' & Hit & Hlen);
    [apply repeat_length|].
  rewrite Hit. cbn [bind].
  unfold array_delete. rewrite Hlen.
  unfold allocate, deallocate. cbn [totalAllocated totalFreed calls].
  change (Z.of_nat 1000) with 1000.
  now rewrite <- app_assoc.
Qed.

(** C9 as stated fails on an implementation whose array overhead is 8
    bytes: from reset counters, the run of [optimizedMemoryUsage] leaves
    1008 in both totals, not 1000 * sizeof(Float8) = 1000. *)
Lemma optimized_workload_allocates_1008 :
  optimizedMemoryUsage 8
    (resetMemoryTracking {| totalAllocated := 0; totalFreed := 0; calls := [] |})
  = Some {| totalAllocated := 1008; totalFreed := 1008;
            calls := [Allocate 1008; Deallocate 1008] |}
  /\ 1008 <> 1000 * Float8.sizeof.
Proof.
  split; [| discriminate].
  unfold optimizedMemoryUsage. rewrite optimized_workload_run. reflexivity.
Qed.

(** C9, amended. From reset counters, a run of the optimized workload adds
    to the allocated total exactly the size of one array allocation, which
    is 1000 * sizeof(Float8) plus the implementation's array overhead, and
    the same amount to the freed total; [allocate] and [deallocate] are each
    called once, and the outcome is the same whatever the number of
    iterations of the outer loop, the program's 1,000,000 included. *)
Theorem optimized_workload_accounting (overhead : Z) (t : tracker) :
  0 <= overhead -> 1000 * Float8.sizeof + overhead < 2 ^ 64 ->
  exists t',
    (forall iterations : N,
       optimized_workload overhead iterations (resetMemoryTracking t) = Some t')
    /\ optimizedMemoryUsage overhead (resetMemoryTracking t) = Some t'
    /\ totalAllocated t' = 1000 * Float8.sizeof + overhead
    /\ totalFreed t' = 1000 * Float8.sizeof + overhead
    /\ calls t' = calls t ++ [Allocate (1000 * Float8.sizeof + overhead);
                              Deallocate (1000 * Float8.sizeof + overhead)].
Proof.
  intros Hpos Hfit.
  assert (Hbytes : array_bytes overhead 1000 = 1000 * Float8.sizeof + overhead)
    by (unfold array_bytes; lia).
  assert (Hsmall : size_t (0 + array_bytes overhead 1000)
                   = 1000 * Float8.sizeof + overhead)
    by (unfold size_t; rewrite Hbytes, Z.mod_small; unfold Float8.sizeof in *; lia).
  pose proof (optimized_workload_run overhead) as Hrun.
  cbn [resetMemoryTracking totalAllocated totalFreed calls] in Hrun.
  exists {| totalAllocated := 1000 * Float8.sizeof + overhead;
            totalFreed := 1000 * Float8.sizeof + overhead;
            calls := calls t ++ [Allocate (1000 * Float8.sizeof + overhead);
                                 Deallocate (1000 * Float8.sizeof + overhead)] |}.
  assert (Hall : forall iterations : N,
             optimized_workload overhead iterations (resetMemoryTracking t)
             = Some {| totalAllocated := 1000 * Float8.sizeof + overhead;
                       totalFreed := 1000 * Float8.sizeof + overhead;
                       calls := calls t ++ [Allocate (1000 * Float8.sizeof + overhead);
                                            Deallocate (1000 * Float8.sizeof + overhead)] |}).
  { intros iterations. rewrite Hrun.
    cbn [resetMemoryTracking totalAllocated totalFreed calls].
    now rewrite Hsmall, Hbytes. }
  split; [exact Hall | split; [exact (Hall 1000000%N) |]].
  cbn [totalAllocated totalFreed calls].
  split; [reflexivity | split; reflexivity].
Qed.

Lemma optimized_workload_accounting_witness :
  0 <= 0 /\ 1000 * Float8.sizeof + 0 < 2 ^ 64
  /\ exists t',
       optimized_workload 0 3
         (resetMemoryTracking {| totalAllocated := 7; totalFreed := 3; calls := [] |})
       = Some t'
       /\ totalAllocated t' = 1000 /\ totalFreed t' = 1000.
Proof.
  split; [discriminate | split; [reflexivity |]].
  destruct (optimized_workload_accounting 0
              {| totalAllocated := 7; totalFreed := 3; calls := [] |})
    as (t' & Hrun & _ & Ha & Hf & _); [discriminate | reflexivity |].
  exists t'. split; [exact (Hrun 3%N) | split; [exact Ha | exact Hf]].
Defined.

(** ** The constructor in closed form *)

Lemma option_Z_eqb_eq (x y : option Z) : option_Z_eqb x y = true -> x = y.
Proof.
  destruct x as [u |], y as [v |]; cbn; try discriminate; try reflexivity.
  intros H. apply Z.eqb_eq in H. now subst.
Qed.

Lemma sign_bit_range (s : bool) : 0 <= sign_bit s < 2.
Proof. destruct s; cbn; lia. Qed.

Lemma of_float_closed (s : bool) (m : positive) (e : Z) :
  F32.valid (S754_finite s m e) = true ->
  Float8.of_float (S754_finite s m e) = Some (closed_form s m e).
Proof.
  intros Hv. unfold closed_form.
  destruct (valid_finite_cases s m e Hv) as [[Hd He] | [Hd He]].
  - apply digits_24 in Hd. rewrite of_float_normal_datum by exact Hd.
    cbv zeta. unfold Float8.BIAS.
    destruct (Z.leb_spec e (-31)) as [Hlo | Hlo].
    { guard_true (e + 24 + 7 <=? 0). reflexivity. }
    guard_false (e + 24 + 7 <=? 0).
    destruct (Z.leb_spec (-15) e) as [Hhi | Hhi].
    { guard_true (e + 24 + 7 >=? 16). destruct s; reflexivity. }
    guard_false (e + 24 + 7 >=? 16).
    pose proof (normal_mantissa_bounds m Hd) as Hq.
    pose proof (sign_bit_range s) as Hs.
    destruct (pack_fields (sign_bit s) (e + 31) (Zpos m / 2 ^ 21))
      as (Hval & _); try lia.
    unfold pack in Hval. replace (e + 24 + 7) with (e + 31) by lia.
    now rewrite Hval.
  - subst e. rewrite of_float_subnormal_datum by exact Hd. reflexivity.
Qed.

Lemma closed_form_range (s : bool) (m : positive) (e : Z) :
  F32.valid (S754_finite s m e) = true ->
  0 <= closed_form s m e < 256
  /\ (-31 < e < -15 ->
      digits2_pos m = 24%positive /\ 4 <= Zpos m / 2 ^ 21 <= 7).
Proof.
  intros Hv. pose proof (sign_bit_range s) as Hs. unfold closed_form.
  destruct (valid_finite_cases s m e Hv) as [[Hd He] | [Hd He]].
  - apply digits_24 in Hd. pose proof (normal_mantissa_bounds m Hd) as Hq.
    split; [| intros _; split; assumption].
    destruct (Z.leb_spec e (-31)); [lia|].
    destruct (Z.leb_spec (-15) e); lia.
  - subst e. cbn. split; lia.
Qed.

(** On every well-formed finite non-zero datum (sign [s], mantissa [m],
    exponent [e]) the constructor returns: the zero byte up to exponent -31
    (magnitudes below [2^-7]); the sign bit with exponent field 15 and
    mantissa field 0 from exponent -15 on (magnitudes from 256 on); in
    between, the sign bit, the exponent plus 31 as exponent field, and the
    top four bits of the 24-bit mantissa as mantissa field, the 21 low bits
    being dropped. *)
Theorem of_float_closed_form (s : bool) (m : positive) (e : Z) :
  F32.valid (S754_finite s m e) = true ->
  (e <= -31 -> Float8.of_float (S754_finite s m e) = Some 0)
  /\ (-15 <= e ->
      Float8.of_float (S754_finite s m e) = Some (128 * sign_bit s + 120))
  /\ (-31 < e < -15 ->
      Float8.of_float (S754_finite s m e)
      = Some (128 * sign_bit s + 8 * (e + 31) + Zpos m / 2 ^ 21)
      /\ 4 <= Zpos m / 2 ^ 21 <= 7).
Proof.
  intros Hv. rewrite (of_float_closed s m e Hv).
  pose proof (closed_form_range s m e Hv) as [_ Hq]. unfold closed_form.
  split; [| split].
  - intros He. now guard_true (e <=? -31).
  - intros He. guard_false (e <=? -31). now guard_true (-15 <=? e).
  - intros He. guard_false (e <=? -31). guard_false (-15 <=? e).
    split; [reflexivity | now apply Hq].
Qed.

Lemma of_float_closed_form_witness :
  F32.valid (S754_finite true 15728639 (-21)) = true /\ -31 < -21 < -15
  /\ Float8.of_float (S754_finite true 15728639 (-21)) = Some 215.
Proof.
  split; [reflexivity | split; [split; reflexivity |]].
  destruct (of_float_closed_form true 15728639 (-21) eq_refl) as (_ & _ & H).
  destruct (H (conj eq_refl eq_refl)) as [Hb _]. exact Hb.
Defined.

(** ** The bytes the constructor returns *)

Lemma producible_table :
  forallb (fun b =>
    implb (producible b)
          (F32.valid (preimage b) && F32.is_finite (preimage b)
           && option_Z_eqb (Float8.of_float (preimage b)) (Some b))) bytes = true.
Proof. vm_compute. reflexivity. Qed.

Lemma producible_fields (sign exponent mant : Z) :
  0 <= sign < 2 -> 1 <= exponent < 16 -> 4 <= mant < 8 ->
  producible (128 * sign + 8 * exponent + mant) = true.
Proof.
  intros Hs He Hm.
  destruct (pack_fields sign exponent mant) as (Hval & _ & Hexp & Hmant); try lia.
  rewrite <- Hval. unfold producible. rewrite Hexp, Hmant.
  replace (1 <=? exponent) with true by (symmetry; apply Z.leb_le; lia).
  replace (4 <=? mant) with true by (symmetry; apply Z.leb_le; lia).
  cbn [andb]. now rewrite orb_true_r.
Qed.

(** A byte is returned by the constructor for some well-formed finite input
    exactly when it is the zero byte, or has exponent field 1 to 15 and
    mantissa field 4 to 7, or is one of the two overflow bytes 120 and 248.
    The other bytes (exponent field 0, or mantissa field 1 to 3, or
    mantissa field 0 below exponent field 15) are never produced. *)
Theorem constructor_image (b : Z) :
  0 <= b < 256 ->
  (producible b = true <->
   exists x, F32.valid x = true /\ F32.is_finite x = true
             /\ Float8.of_float x = Some b).
Proof.
  intros Hb. split.
  - intros Hp. exists (preimage b).
    pose proof (bytes_forallb _ producible_table b Hb) as H. cbv beta in H.
    rewrite Hp in H. cbn [implb] in H.
    apply andb_true_iff in H as [H Hof]. apply andb_true_iff in H as [Hv Hf].
    repeat split; try assumption. now apply option_Z_eqb_eq.
  - intros (x & Hv & Hf & Hof).
    destruct x as [s | s | | s m e]; try discriminate Hf.
    + rewrite of_float_zero in Hof. injection Hof as <-. reflexivity.
    + rewrite of_float_closed in Hof by exact Hv.
      assert (Hcf : closed_form s m e = b) by congruence. clear Hof.
      pose proof (closed_form_range s m e Hv) as [_ Hq].
      pose proof (sign_bit_range s) as Hs.
      unfold closed_form in Hcf.
      destruct (Z.leb_spec e (-31)); [subst b; reflexivity|].
      destruct (Z.leb_spec (-15) e).
      * subst b. destruct s; reflexivity.
      * subst b. destruct Hq as [_ Hq]; [lia|].
        apply producible_fields; lia.
Qed.

Lemma constructor_image_witness :
  0 <= 68 < 256
  /\ (producible 68 = true <->
      exists x, F32.valid x = true /\ F32.is_finite x = true
                /\ Float8.of_float x = Some 68).
Proof.
  split; [split; [discriminate | reflexivity] |].
  apply (constructor_image 68). split; [discriminate | reflexivity].
Defined.

(** Of the 256 bytes, 123 are produced. *)
Lemma producible_count : length (filter producible bytes) = 123%nat.
Proof. vm_compute. reflexivity. Qed.

(** ** Sign and order *)

Lemma flip_sign_table :
  forallb (fun b => Z.lxor b 128 =? (if b <? 128 then b + 128 else b - 128)) bytes
  = true.
Proof. vm_compute. reflexivity. Qed.

Lemma flip_sign (b : Z) :
  0 <= b < 256 -> Z.lxor b 128 = if b <? 128 then b + 128 else b - 128.
Proof.
  intros Hb. apply Z.eqb_eq. exact (bytes_forallb _ flip_sign_table b Hb).
Qed.

(** Packing the negated input gives the same byte with bit 7 flipped,
    unless the input is flushed: then both are the zero byte. *)
Theorem of_float_opp (x : F32.float) :
  F32.valid x = true -> F32.is_finite x = true ->
  exists b, Float8.of_float x = Some b
    /\ Float8.of_float (F32.opp x) = Some (if b =? 0 then 0 else Z.lxor b 128).
Proof.
  intros Hv Hf. destruct x as [s | s | | s m e]; try discriminate Hf.
  - exists 0. split; [apply of_float_zero | apply (of_float_zero (negb s))].
  - exists (closed_form s m e).
    assert (Hv' : F32.valid (S754_finite (negb s) m e) = true) by exact Hv.
    split; [now apply of_float_closed|].
    cbn [F32.opp SFopp]. rewrite of_float_closed by exact Hv'.
    pose proof (closed_form_range s m e Hv) as [Hr Hq].
    rewrite flip_sign by exact Hr. unfold closed_form in *.
    destruct (Z.leb_spec e (-31)); [reflexivity|].
    destruct (Z.leb_spec (-15) e); [destruct s; reflexivity|].
    destruct Hq as [_ Hq]; [lia|].
    destruct s; cbn [negb sign_bit].
    + replace (128 * 1 + 8 * (e + 31) + Zpos m / 2 ^ 21 =? 0) with false
        by (symmetry; apply Z.eqb_neq; lia).
      replace (128 * 1 + 8 * (e + 31) + Zpos m / 2 ^ 21 <? 128) with false
        by (symmetry; apply Z.ltb_ge; lia).
      f_equal. lia.
    + replace (128 * 0 + 8 * (e + 31) + Zpos m / 2 ^ 21 =? 0) with false
        by (symmetry; apply Z.eqb_neq; lia).
      replace (128 * 0 + 8 * (e + 31) + Zpos m / 2 ^ 21 <? 128) with true
        by (symmetry; apply Z.ltb_lt; lia).
      f_equal. lia.
Qed.

Lemma of_float_opp_witness :
  F32.valid (F32.of_int 3) = true /\ F32.is_finite (F32.of_int 3) = true
  /\ exists b, Float8.of_float (F32.of_int 3) = Some b
       /\ Float8.of_float (F32.opp (F32.of_int 3))
          = Some (if b =? 0 then 0 else Z.lxor b 128).
Proof.
  split; [reflexivity | split; [reflexivity |]].
  exact (of_float_opp (F32.of_int 3) eq_refl eq_refl).
Defined.

(** Below the overflow threshold the constructor is monotone on
    non-negative inputs: a larger input never gets a smaller byte. *)
Theorem of_float_monotone (x y : F32.float) (E : Z) :
  F32.valid x = true -> F32.is_finite x = true ->
  F32.valid y = true -> F32.is_finite y = true ->
  F32.leb F32.zero x = true -> F32.leb x y = true ->
  Float8.biased_exponent y = Some E -> E < 16 ->
  exists bx by_, Float8.of_float x = Some bx /\ Float8.of_float y = Some by_
                 /\ bx <= by_.
Proof.
  intros Hvx Hfx Hvy Hfy Hx Hxy HE Hlt.
  destruct (of_float_total y Hvy Hfy) as (by_ & Hby & Hry).
  destruct x as [sx | sx | | sx mx ex]; try discriminate Hfx.
  { exists 0, by_. split; [apply of_float_zero | split; [assumption | lia]]. }
  destruct sx; [discriminate Hx|].
  destruct y as [sy | sy | | sy my ey]; try discriminate Hfy.
  { discriminate Hxy. }
  destruct sy; [discriminate Hxy|].
  exists (closed_form false mx ex), (closed_form false my ey).
  split; [now apply of_float_closed|].
  split; [now apply of_float_closed|].
  pose proof (closed_form_range false mx ex Hvx) as [Hrx Hqx].
  pose proof (closed_form_range false my ey Hvy) as [Hr Hqy].
  assert (Hey : ey < -15).
  { destruct (valid_finite_cases false my ey Hvy) as [[Hd He] | [Hd He]]; [|lia].
    apply digits_24 in Hd. rewrite biased_exponent_normal in HE by exact Hd.
    injection HE as HE. lia. }
  assert (Hord : ex < ey \/ (ex = ey /\ Zpos mx <= Zpos my)).
  { revert Hxy. unfold F32.leb, SFleb, SFcompare.
    destruct (Z.compare_spec ex ey) as [He | He | He]; try discriminate.
    - intros Hc. right. split; [assumption|].
      destruct (Pos.compare_cont Eq mx my) eqn:Hm; try discriminate Hc.
      + apply Pos.compare_eq in Hm. subst. lia.
      + apply Pos.compare_lt_iff, Pos2Z.pos_lt_pos in Hm. lia.
    - intros _. now left. }
  unfold closed_form in *. cbn [sign_bit] in *.
  destruct (Z.leb_spec ex (-31)); [lia|].
  destruct (Z.leb_spec ey (-31)); [lia|].
  destruct (Z.leb_spec (-15) ey); [lia|].
  destruct (Z.leb_spec (-15) ex); [lia|].
  destruct Hqx as [_ Hqx]; [lia|]. destruct Hqy as [_ Hqy]; [lia|].
  destruct Hord as [Hlt' | [-> Hm]]; [lia|].
  assert (Zpos mx / 2 ^ 21 <= Zpos my / 2 ^ 21)
    by (apply Z.div_le_mono; lia).
  lia.
Qed.

Lemma of_float_monotone_witness :
  F32.leb F32.zero (F32.of_int 5) = true
  /\ F32.leb (F32.of_int 5) (F32.of_int 200) = true
  /\ Float8.biased_exponent (F32.of_int 200) = Some 15 /\ 15 < 16
  /\ exists bx by_, Float8.of_float (F32.of_int 5) = Some bx
       /\ Float8.of_float (F32.of_int 200) = Some by_ /\ bx <= by_.
Proof.
  split; [reflexivity | split; [reflexivity | split; [reflexivity |]]].
  split; [reflexivity |].
  exact (of_float_monotone (F32.of_int 5) (F32.of_int 200) 15
           eq_refl eq_refl eq_refl eq_refl eq_refl eq_refl eq_refl eq_refl).
Defined.

(** ** Round trips *)

Lemma roundtrip_value (s : bool) (m : positive) (e : Z) :
  F32.valid (S754_finite s m e) = true -> -31 < e < -15 ->
  exists b, Float8.of_float (S754_finite s m e) = Some b
    /\ Float8.to_float b
       = S754_finite s (Z.to_pos ((8 + Zpos m / 2 ^ 21) * 2 ^ 20)) (e + 1).
Proof.
  intros Hv He. exists (closed_form s m e).
  split; [now apply of_float_closed|].
  pose proof (closed_form_range s m e Hv) as [Hr Hq].
  destruct Hq as [_ Hq]; [exact He|].
  pose proof (sign_bit_range s) as Hs.
  rewrite to_float_decoded by exact Hr.
  unfold closed_form in *.
  replace (e <=? -31) with false in * by (symmetry; apply Z.leb_gt; lia).
  replace (-15 <=? e) with false in * by (symmetry; apply Z.leb_gt; lia).
  destruct (pack_fields (sign_bit s) (e + 31) (Zpos m / 2 ^ 21))
    as (Hval & Hsign & Hexp & Hmant); try lia.
  rewrite <- Hval. unfold decoded.
  replace (pack (sign_bit s) (e + 31) (Zpos m / 2 ^ 21) =? 0) with false
    by (symmetry; apply Z.eqb_neq; lia).
  rewrite Hsign, Hexp, Hmant.
  replace (e + 31 - 30) with (e + 1) by lia.
  destruct s; reflexivity.
Qed.

(** The round trip on the normal path.  For the datum with 24-bit mantissa
    [m] and exponent [e], the unpacked value has the same sign, mantissa
    [(8 + floor(m / 2^21)) * 2^20] and exponent [e + 1], that is
    [(1 + floor(8 f) / 8) * 2^k] for the input [f * 2^k] with [f] in
    [0.5, 1).  Its magnitude is more than 15/8 of the input's and at most 3
    times the input's. *)
Theorem roundtrip_magnitude_bounds (s : bool) (m : positive) (e : Z) :
  F32.valid (S754_finite s m e) = true -> -31 < e < -15 ->
  exists b, Float8.of_float (S754_finite s m e) = Some b
    /\ Float8.to_float b
       = S754_finite s (Z.to_pos ((8 + Zpos m / 2 ^ 21) * 2 ^ 20)) (e + 1)
    /\ ((15 # 8) * Qabs (F32.to_Q (S754_finite s m e))
        < Qabs (F32.to_Q (Float8.to_float b)))%Q
    /\ (Qabs (F32.to_Q (Float8.to_float b))
        <= 3 * Qabs (F32.to_Q (S754_finite s m e)))%Q.
Proof.
  intros Hv He.
  destruct (roundtrip_value s m e Hv He) as (b & Hb & Hval).
  exists b. split; [exact Hb|]. split; [exact Hval|]. rewrite Hval, !to_Q_abs.
  pose proof (closed_form_range s m e Hv) as [_ Hq].
  destruct Hq as [_ Hq]; [exact He|].
  set (q := Zpos m / 2 ^ 21) in *.
  rewrite Z2Pos.id by lia.
  assert (Hhi : Zpos m < 2 ^ 21 * Z.succ q) by (apply Z.mul_succ_div_gt; lia).
  assert (Hlo : 2 ^ 21 * q <= Zpos m) by (apply Z.mul_div_le; lia).
  change (2 ^ 21) with 2097152 in Hhi, Hlo. change (2 ^ 20) with 1048576.
  assert (Hpow : (0 < 2 ^ e)%Q) by (apply Qpower_0_lt; reflexivity).
  rewrite Qpower_plus by discriminate. change ((2 ^ 1)%Q) with (2%Q).
  rewrite (Qmult_comm (2 ^ e) 2), !Qmult_assoc. split.
  - apply Qmult_lt_compat_r; [exact Hpow|].
    unfold Qlt, Qmult, inject_Z. cbn [Qnum Qden].
    change (Zpos (1 * 1)) with 1. change (Zpos (8 * 1)) with 8. lia.
  - apply Qmult_le_compat_r; [| apply Qlt_le_weak; exact Hpow].
    unfold Qle, Qmult, inject_Z. cbn [Qnum Qden].
    change (Zpos (1 * 1)) with 1. lia.
Qed.

Lemma roundtrip_magnitude_bounds_witness :
  F32.valid (S754_finite false 10485760 (-21)) = true /\ -31 < -21 < -15
  /\ exists b, Float8.of_float (S754_finite false 10485760 (-21)) = Some b
       /\ (Qabs (F32.to_Q (Float8.to_float b))
           <= 3 * Qabs (F32.to_Q (S754_finite false 10485760 (-21))))%Q.
Proof.
  split; [reflexivity | split; [split; reflexivity |]].
  destruct (roundtrip_magnitude_bounds false 10485760 (-21) eq_refl
              (conj eq_refl eq_refl)) as (b & Hb & _ & _ & Hle).
  exists b. split; assumption.
Defined.

Lemma repacked_table :
  forallb (fun b =>
    option_Z_eqb (Float8.of_float (Float8.to_float b)) (Some (repacked b))
    && Bool.eqb (repacked b =? b) ((b =? 0) || (b =? 120) || (b =? 248))) bytes
  = true.
Proof. vm_compute. reflexivity. Qed.

Lemma repacked_eq (b : Z) :
  0 <= b < 256 -> Float8.of_float (Float8.to_float b) = Some (repacked b).
Proof.
  intros Hb. pose proof (bytes_forallb _ repacked_table b Hb) as H.
  cbv beta in H. apply andb_true_iff in H as [Hre _].
  now apply option_Z_eqb_eq.
Qed.

Lemma repacked_fixed (b : Z) :
  0 <= b < 256 -> (repacked b = b <-> b = 0 \/ b = 120 \/ b = 248).
Proof.
  intros Hb. pose proof (bytes_forallb _ repacked_table b Hb) as H.
  cbv beta in H. apply andb_true_iff in H as [_ Hfix].
  apply Bool.eqb_prop in Hfix. rewrite <- Z.eqb_eq, Hfix.
  rewrite !orb_true_iff, !Z.eqb_eq. tauto.
Qed.

(** Unpacking a byte and packing the value again does not give the byte
    back: the exponent field goes up by one and the mantissa field [f]
    becomes [4 + f / 2]; exponent field 15 gives the overflow byte.  The
    only bytes that come back unchanged are 0 and the overflow bytes 120 and
    248. *)
Theorem repacking (b : Z) :
  0 <= b < 256 ->
  Float8.of_float (Float8.to_float b) = Some (repacked b)
  /\ (Float8.of_float (Float8.to_float b) = Some b
      <-> b = 0 \/ b = 120 \/ b = 248).
Proof.
  intros Hb. pose proof (repacked_eq b Hb) as Hre.
  pose proof (repacked_fixed b Hb) as Hfix.
  split; [exact Hre|]. rewrite Hre. split.
  - intros Heq. apply Hfix. congruence.
  - intros Hcases. f_equal. now apply Hfix.
Qed.

Lemma repacking_witness :
  0 <= 68 < 256
  /\ Float8.of_float (Float8.to_float 68) = Some 78.
Proof.
  split; [split; [discriminate | reflexivity] |].
  apply (repacking 68). split; [discriminate | reflexivity].
Defined.

(** ** The values [operator float] returns *)

Lemma to_float_range_table :
  forallb (fun b =>
    F32.leb (two_pow (-7)) (F32.abs (decoded b))
    && F32.leb (F32.abs (decoded b)) (F32.of_int 480)
    && negb (F32.eqb (decoded b) F32.zero)) (Zrange 1 255) = true.
Proof. vm_compute. reflexivity. Qed.

(** Every non-zero byte unpacks to a non-zero value of magnitude between
    [2^-7] and 480; both ends are reached (bytes 128 and 127).  In
    particular the byte 128, sign bit alone, is not a zero: it unpacks to
    [-2^-7]. *)
Theorem to_float_range (b : Z) :
  0 < b < 256 ->
  F32.leb (two_pow (-7)) (F32.abs (Float8.to_float b)) = true
  /\ F32.leb (F32.abs (Float8.to_float b)) (F32.of_int 480) = true
  /\ F32.eqb (Float8.to_float b) F32.zero = false.
Proof.
  intros Hb. rewrite to_float_decoded by lia.
  pose proof (Zrange_forallb _ 1 255 to_float_range_table b) as H.
  cbv beta in H. specialize (H ltac:(cbn; lia)).
  apply andb_true_iff in H as [H Hnz]. apply andb_true_iff in H as [Hlo Hhi].
  apply negb_true_iff in Hnz. repeat split; assumption.
Qed.

Lemma to_float_range_witness :
  0 < 128 < 256
  /\ F32.abs (Float8.to_float 128) = two_pow (-7)
  /\ F32.eqb (Float8.to_float 128) F32.zero = false.
Proof.
  split; [split; reflexivity |]. split; [reflexivity |].
  apply (to_float_range 128). split; reflexivity.
Defined.

Lemma to_float_order_table :
  forallb (fun a =>
    forallb (fun b => F32.ltb (decoded a) (decoded b))
            (Zrange (a + 1) (Z.to_nat (127 - a)))) (Zrange 0 128) = true.
Proof. vm_compute. reflexivity. Qed.

Lemma to_float_odd_table :
  forallb (fun b => F32.same (decoded (b + 128)) (F32.opp (decoded b)))
          (Zrange 1 127) = true.
Proof. vm_compute. reflexivity. Qed.

(** Among the bytes 0 to 127 the unpacked value grows strictly with the
    byte, so these bytes compare like the values they stand for. *)
Theorem to_float_increasing (a b : Z) :
  0 <= a -> a < b -> b < 128 ->
  F32.ltb (Float8.to_float a) (Float8.to_float b) = true.
Proof.
  intros Ha Hab Hb. rewrite !to_float_decoded by lia.
  pose proof (Zrange_forallb _ 0 128 to_float_order_table a) as Hrow.
  cbv beta in Hrow. specialize (Hrow ltac:(cbn; lia)).
  apply (Zrange_forallb _ _ _ Hrow b). lia.
Qed.

Lemma to_float_increasing_witness :
  0 <= 67 /\ 67 < 68 /\ 68 < 128
  /\ F32.ltb (Float8.to_float 67) (Float8.to_float 68) = true.
Proof.
  split; [discriminate | split; [reflexivity | split; [reflexivity |]]].
  apply (to_float_increasing 67 68); [discriminate | reflexivity | reflexivity].
Defined.

(** Setting bit 7 of a byte from 1 to 127 negates the unpacked value. *)
Theorem to_float_sign_bit (b : Z) :
  0 < b < 128 ->
  Float8.to_float (b + 128) = F32.opp (Float8.to_float b).
Proof.
  intros Hb. rewrite !to_float_decoded by lia. apply same_eq.
  apply (Zrange_forallb _ 1 127 to_float_odd_table b). cbn. lia.
Qed.

Lemma to_float_sign_bit_witness :
  0 < 68 < 128 /\ Float8.to_float (68 + 128) = F32.of_int (-3).
Proof.
  split; [split; reflexivity |].
  apply (to_float_sign_bit 68). split; reflexivity.
Defined.

(** ** More on [operator+] and [operator*] *)

(** Both operators are commutative, on all arguments. *)
Theorem arithmetic_commutative (a b : Z) :
  Float8.add a b = Float8.add b a /\ Float8.mul a b = Float8.mul b a.
Proof.
  unfold Float8.add, Float8.mul.
  now rewrite (F32_add_comm (Float8.to_float a)), (F32_mul_comm (Float8.to_float a)).
Qed.

Lemma decoded_not_negative_zero (b : Z) :
  0 <= b < 256 -> Float8.to_float b <> S754_zero true.
Proof.
  intros Hb. rewrite to_float_decoded by exact Hb. unfold decoded.
  destruct (b =? 0); discriminate.
Qed.

(** The zero byte in arithmetic.  A product with the zero byte is the zero
    byte.  A sum with the zero byte is the other operand packed again, so
    the zero byte is not neutral: [a + Float8(0)] is [a] only for the bytes
    0, 120 and 248. *)
Theorem arithmetic_with_zero (a : Z) :
  0 <= a < 256 ->
  Float8.mul a 0 = Some 0 /\ Float8.mul 0 a = Some 0
  /\ Float8.add a 0 = Some (repacked a) /\ Float8.add 0 a = Some (repacked a)
  /\ (Float8.add a 0 = Some a <-> a = 0 \/ a = 120 \/ a = 248).
Proof.
  intros Ha. pose proof (to_float_finite a Ha) as Hfin.
  pose proof (decoded_not_negative_zero a Ha) as Hnz.
  pose proof (repacked_eq a Ha) as Hre.
  pose proof (repacked_fixed a Ha) as Hfix.
  assert (Hmul : Float8.mul a 0 = Some 0).
  { unfold Float8.mul. change (Float8.to_float 0) with (S754_zero false).
    destruct (Float8.to_float a) as [s | s | | s m e]; try discriminate Hfin;
      apply of_float_zero. }
  assert (Hadd : Float8.add a 0 = Some (repacked a)).
  { unfold Float8.add. change (Float8.to_float 0) with (S754_zero false).
    rewrite <- Hre.
    destruct (Float8.to_float a) as [s | s | | s m e]; try discriminate Hfin.
    - destruct s; [now contradiction Hnz | reflexivity].
    - reflexivity. }
  assert (Hca : Float8.add 0 a = Float8.add a 0)
    by (unfold Float8.add; now rewrite F32_add_comm).
  assert (Hcm : Float8.mul 0 a = Float8.mul a 0)
    by (unfold Float8.mul; now rewrite F32_mul_comm).
  split; [exact Hmul|]. split; [now rewrite Hcm|].
  split; [exact Hadd|]. split; [now rewrite Hca|].
  rewrite Hadd. split.
  - intros Heq. apply Hfix. congruence.
  - intros Hcases. f_equal. now apply Hfix.
Qed.

Lemma arithmetic_with_zero_witness :
  0 <= 68 < 256 /\ Float8.add 68 0 = Some 78 /\ Float8.mul 68 0 = Some 0.
Proof.
  split; [split; [discriminate | reflexivity] |].
  destruct (arithmetic_with_zero 68) as (Hm & _ & Ha & _);
    [split; [discriminate | reflexivity] |].
  split; [exact Ha | exact Hm].
Defined.

(** ** Allocation accounting *)

Import Harness.

Lemma bind_Some {A B : Type} (a : A) (k : A -> option B) :
  bind (Some a) k = k a.
Proof. reflexivity. Qed.

Lemma size_t_add (a b : Z) : size_t (size_t a + b) = size_t (a + b).
Proof. unfold size_t. apply Zplus_mod_idemp_l. Qed.

Lemma cycles_totals (size : Z) (n : N) (t : tracker) :
  totalAllocated (N.iter n (cycle size) t)
  = (if (n =? 0)%N then totalAllocated t
     else size_t (totalAllocated t + Z.of_N n * size))
  /\ totalFreed (N.iter n (cycle size) t)
     = (if (n =? 0)%N then totalFreed t
        else size_t (totalFreed t + Z.of_N n * size))
  /\ Z.of_nat (length (calls (N.iter n (cycle size) t)))
     = Z.of_nat (length (calls t)) + 2 * Z.of_N n.
Proof.
  induction n as [| n IH] using N.peano_ind.
  - cbn. repeat split; lia.
  - rewrite N.iter_succ. destruct IH as (Ha & Hf & Hc).
    replace (N.succ n =? 0)%N with false
      by (symmetry; apply N.eqb_neq; lia).
    unfold cycle at 1 3 5. unfold allocate, deallocate.
    cbn [totalAllocated totalFreed calls]. rewrite Ha, Hf.
    rewrite !length_app. cbn [length].
    rewrite N2Z.inj_succ.
    destruct (N.eqb_spec n 0) as [-> | Hn].
    + cbn [Z.of_N]. split; [f_equal; lia | split; [f_equal; lia | lia]].
    + rewrite !size_t_add. split; [f_equal; lia | split; [f_equal; lia | lia]].
Qed.

(** Starting from totals that are [size_t] values, [n] rounds of
    [allocate(size)] followed by [deallocate(size)] add [n * size] modulo
    2^64 to each total, log [2 n] calls, and leave the difference of the two
    totals unchanged modulo 2^64: whole rounds do not change the number of
    bytes outstanding. *)
Theorem cycles_accounting (size : Z) (n : N) (t : tracker) :
  0 <= totalAllocated t < 2 ^ 64 -> 0 <= totalFreed t < 2 ^ 64 ->
  let t' := N.iter n (cycle size) t in
  totalAllocated t' = size_t (totalAllocated t + Z.of_N n * size)
  /\ totalFreed t' = size_t (totalFreed t + Z.of_N n * size)
  /\ size_t (totalAllocated t' - totalFreed t')
     = size_t (totalAllocated t - totalFreed t)
  /\ Z.of_nat (length (calls t'))
     = Z.of_nat (length (calls t)) + 2 * Z.of_N n.
Proof.
  intros HA HF. cbv zeta.
  destruct (cycles_totals size n t) as (Ha & Hf & Hc).
  assert (Ha' : totalAllocated (N.iter n (cycle size) t)
                = size_t (totalAllocated t + Z.of_N n * size)).
  { rewrite Ha. destruct (N.eqb_spec n 0) as [-> | _]; [|reflexivity].
    cbn [Z.of_N]. unfold size_t. rewrite Z.mod_small; lia. }
  assert (Hf' : totalFreed (N.iter n (cycle size) t)
                = size_t (totalFreed t + Z.of_N n * size)).
  { rewrite Hf. destruct (N.eqb_spec n 0) as [-> | _]; [|reflexivity].
    cbn [Z.of_N]. unfold size_t. rewrite Z.mod_small; lia. }
  split; [exact Ha' | split; [exact Hf' | split; [| exact Hc]]].
  rewrite Ha', Hf'. unfold size_t. rewrite <- Zminus_mod. f_equal. lia.
Qed.

Lemma cycles_accounting_witness :
  0 <= 18446744073709551000 < 2 ^ 64 /\ 0 <= 5 < 2 ^ 64
  /\ totalAllocated
       (N.iter 1 (cycle 1000)
          {| totalAllocated := 18446744073709551000; totalFreed := 5; calls := [] |})
     = 384.
Proof.
  split; [split; [discriminate | reflexivity] |].
  split; [split; [discriminate | reflexivity] |].
  destruct (cycles_accounting 1000 1
              {| totalAllocated := 18446744073709551000; totalFreed := 5; calls := [] |})
    as (Ha & _);
    [split; [discriminate | reflexivity] | split; [discriminate | reflexivity] |].
  exact Ha.
Defined.

Lemma allocate_write_free_cycle (overhead : Z) (t : tracker) :
  allocate_write_free overhead t = Some (cycle (array_bytes overhead 1000) t).
Proof.
  unfold allocate_write_free, array_new.
  change (Float8.of_float F32.zero) with (Some 0). cbn [bind].
  destruct (inner_loop_some (repeat 0 1000)) as (data' & Hin & Hlen);
    [apply repeat_length|].
  rewrite Hin. cbn [bind]. unfold array_delete. rewrite Hlen. reflexivity.
Qed.

Lemma non_optimized_workload_cycles (overhead : Z) (n : N) (t : tracker) :
  non_optimized_workload overhead n t
  = Some (N.iter n (cycle (array_bytes overhead 1000)) t).
Proof.
  unfold non_optimized_workload.
  induction n as [| n IH] using N.peano_ind; [reflexivity|].
  rewrite !N.iter_succ, IH. cbn [bind]. apply allocate_write_free_cycle.
Qed.

(** The non-optimized workload never fails; with [n] iterations from reset
    counters it leaves [n * (1000 * sizeof(Float8) + overhead)] in both
    totals, as long as that fits 64 bits, through [n] calls of [allocate]
    and [n] of [deallocate]: its allocation volume grows with the
    iteration count. *)
Theorem non_optimized_workload_accounting
    (overhead : Z) (n : N) (t : tracker) :
  0 <= overhead -> Z.of_N n * (1000 * Float8.sizeof + overhead) < 2 ^ 64 ->
  exists t',
    non_optimized_workload overhead n (resetMemoryTracking t) = Some t'
    /\ totalAllocated t' = Z.of_N n * (1000 * Float8.sizeof + overhead)
    /\ totalFreed t' = Z.of_N n * (1000 * Float8.sizeof + overhead)
    /\ Z.of_nat (length (calls t'))
       = Z.of_nat (length (calls t)) + 2 * Z.of_N n.
Proof.
  intros Hpos Hfit. eexists. split; [apply non_optimized_workload_cycles|].
  destruct (cycles_totals (array_bytes overhead 1000) n (resetMemoryTracking t))
    as (Ha & Hf & Hc).
  rewrite Ha, Hf, Hc. cbn [resetMemoryTracking totalAllocated totalFreed calls].
  unfold array_bytes, Float8.sizeof in *.
  destruct (N.eqb_spec n 0) as [-> | Hn].
  - cbn. repeat split; lia.
  - unfold size_t. rewrite Z.mod_small by lia. repeat split; lia.
Qed.

Lemma non_optimized_workload_accounting_witness :
  0 <= 8 /\ Z.of_N 3 * (1000 * Float8.sizeof + 8) < 2 ^ 64
  /\ exists t',
       non_optimized_workload 8 3
         (resetMemoryTracking {| totalAllocated := 5; totalFreed := 0; calls := [] |})
       = Some t'
       /\ totalAllocated t' = 3024 /\ totalFreed t' = 3024.
Proof.
  split; [discriminate | split; [reflexivity |]].
  destruct (non_optimized_workload_accounting 8 3
              {| totalAllocated := 5; totalFreed := 0; calls := [] |})
    as (t' & Hrun & Ha & Hf & _); [discriminate | reflexivity |].
  exists t'. split; [exact Hrun | split; [exact Ha | exact Hf]].
Defined.

(** [runAllTests] never fails, whatever the counters hold when it starts.
    The first report shows what the 1,000,000 rounds of the non-optimized
    workload added to the starting totals (modulo 2^64); the second report
    shows one array, [1000 * sizeof(Float8) + overhead] bytes, in both
    totals, because of the reset in between.  From counters at zero, as in
    [main], the first report is exactly 1,000,000 times the second. *)
Theorem runAllTests_reports (overhead : Z) (t : tracker) :
  0 <= overhead -> 1000000 * (1000 * Float8.sizeof + overhead) < 2 ^ 64 ->
  exists t',
    runAllTests overhead t
    = Some ((size_t (totalAllocated t + 1000000 * (1000 * Float8.sizeof + overhead)),
             size_t (totalFreed t + 1000000 * (1000 * Float8.sizeof + overhead))),
            (1000 * Float8.sizeof + overhead, 1000 * Float8.sizeof + overhead),
            t')
    /\ totalAllocated t' = 1000 * Float8.sizeof + overhead
    /\ totalFreed t' = 1000 * Float8.sizeof + overhead
    /\ (totalAllocated t = 0 ->
        size_t (totalAllocated t + 1000000 * (1000 * Float8.sizeof + overhead))
        = 1000000 * (1000 * Float8.sizeof + overhead)).
Proof.
  intros Hpos Hfit.
  assert (Hbytes : array_bytes overhead 1000 = 1000 * Float8.sizeof + overhead)
    by (unfold array_bytes; lia).
  assert (Hsmall : size_t (0 + array_bytes overhead 1000)
                   = 1000 * Float8.sizeof + overhead)
    by (unfold size_t; rewrite Hbytes, Z.mod_small; unfold Float8.sizeof in *; lia).
  destruct (cycles_totals (array_bytes overhead 1000) 1000000 t)
    as (Ha & Hf & _).
  change ((1000000 =? 0)%N) with false in Ha, Hf. cbv iota in Ha, Hf.
  change (Z.of_N 1000000) with 1000000 in Ha, Hf.
  unfold runAllTests, nonOptimizedMemoryUsage, optimizedMemoryUsage.
  rewrite non_optimized_workload_cycles, bind_Some.
  rewrite optimized_workload_run, bind_Some.
  unfold report at 1. rewrite Ha, Hf. clear Ha Hf.
  generalize (N.iter 1000000 (cycle (array_bytes overhead 1000)) t).
  intros t1. unfold report.
  cbn [resetMemoryTracking totalAllocated totalFreed calls].
  rewrite Hsmall, !Hbytes.
  eexists. split; [reflexivity|].
  cbn [totalAllocated totalFreed].
  split; [reflexivity|]. split; [reflexivity|].
  intros ->. unfold size_t. apply Z.mod_small. unfold Float8.sizeof in *. lia.
Qed.

Lemma runAllTests_reports_witness :
  0 <= 8 /\ 1000000 * (1000 * Float8.sizeof + 8) < 2 ^ 64
  /\ exists t',
       runAllTests 8 {| totalAllocated := 0; totalFreed := 0; calls := [] |}
       = Some ((1008000000, 1008000000), (1008, 1008), t').
Proof.
  split; [discriminate | split; [reflexivity |]].
  destruct (runAllTests_reports 8
              {| totalAllocated := 0; totalFreed := 0; calls := [] |})
    as (t' & Hrun & _); [discriminate | reflexivity |].
  exists t'. exact Hrun.
Defined.

(** ** What the write loop leaves in the array *)

Lemma Zrange_succ (lo : Z) (n : nat) :
  Zrange lo (S n) = lo :: Zrange (lo + 1) n.
Proof.
  unfold Zrange. cbn [seq map]. f_equal; [lia|].
  rewrite <- seq_shift, map_map. apply map_ext. intros i. lia.
Qed.

Lemma Zrange_length (lo : Z) (n : nat) : length (Zrange lo n) = n.
Proof. unfold Zrange. now rewrite length_map, length_seq. Qed.

Lemma store_eq (data : list Z) (j : nat) (v : Z) :
  (j < length data)%nat ->
  store data j v = Some (firstn j data ++ v :: skipn (S j) data).
Proof.
  revert j. induction data as [| d rest IH]; intros j Hj; cbn in Hj; [lia|].
  destruct j as [| j']; [reflexivity|].
  cbn [store]. rewrite IH by lia. reflexivity.
Qed.

Lemma small_int_packed (j : Z) :
  0 <= j < 1000 -> Float8.of_float (F32.of_int j) = Some (packed j).
Proof.
  intros Hj. destruct (small_int_packs j Hj) as [v Hv].
  unfold packed. now rewrite Hv.
Qed.

Lemma write_from_eq (count : nat) (j : nat) (data : list Z) :
  (j + count <= 1000)%nat -> (j + count <= length data)%nat ->
  write_from count (Z.of_nat j) data
  = Some (firstn j data ++ map packed (Zrange (Z.of_nat j) count)
          ++ skipn (j + count) data).
Proof.
  revert j data. induction count as [| count IH]; intros j data Hmax Hlen.
  - cbn [write_from Zrange seq map app]. rewrite Nat.add_0_r.
    now rewrite firstn_skipn.
  - cbn [write_from]. rewrite small_int_packed by lia. cbn [bind].
    rewrite Nat2Z.id, store_eq by lia. cbn [bind].
    replace (Z.of_nat j + 1) with (Z.of_nat (S j)) by lia.
    rewrite IH by (rewrite ?length_app, ?length_firstn; cbn [length];
                   rewrite ?length_skipn; lia).
    rewrite Zrange_succ. cbn [map].
    replace (Z.of_nat j + 1) with (Z.of_nat (S j)) by lia.
    assert (Hfl : length (firstn j data) = j) by (rewrite length_firstn; lia).
    f_equal. rewrite firstn_app, Hfl, firstn_all2 by lia.
    replace (S j - j)%nat with 1%nat by lia. cbn [firstn].
    rewrite skipn_app, Hfl, skipn_all2 by lia.
    replace (S j + count - j)%nat with (S count) by lia.
    rewrite skipn_cons. cbn [app]. rewrite skipn_skipn.
    replace (count + S j)%nat with (j + S count)%nat by lia.
    now rewrite <- app_assoc.
Qed.

(** One pass of the write loop over an array of 1000 elements overwrites
    every slot: the result is the same array whatever the array held
    before, slot [j] holding the packing of [j].  Hence every pass after the
    first changes nothing, and any positive number of passes gives the same
    array as one. *)
Theorem inner_loop_overwrites (data : list Z) :
  length data = 1000%nat ->
  inner_loop data = Some workload_array
  /\ inner_loop workload_array = Some workload_array
  /\ (forall n : N, (0 < n)%N ->
        N.iter n (fun d => bind d inner_loop) (Some data) = Some workload_array)
  /\ (forall j, 0 <= j < 1000 ->
        nth_error workload_array (Z.to_nat j) = Some (packed j)).
Proof.
  intros Hlen.
  assert (Hpass : forall d, length d = 1000%nat -> inner_loop d = Some workload_array).
  { intros d Hd. unfold inner_loop. change 0 with (Z.of_nat 0).
    rewrite (write_from_eq 1000 0 d) by lia.
    rewrite skipn_all2 by lia. cbn [firstn app]. now rewrite app_nil_r. }
  assert (Hwl : length workload_array = 1000%nat)
    by (unfold workload_array; now rewrite length_map, Zrange_length).
  split; [now apply Hpass|]. split; [now apply Hpass|]. split.
  - intros n Hn. induction n as [| n IH] using N.peano_ind; [lia|].
    rewrite N.iter_succ. destruct (N.eqb_spec n 0) as [-> | Hnz].
    + cbn [N.iter]. rewrite bind_Some. now apply Hpass.
    + rewrite IH by lia. rewrite bind_Some. now apply Hpass.
  - intros j Hj. unfold workload_array, Zrange.
    rewrite !nth_error_map.
    rewrite (nth_error_nth' _ 0%nat) by (rewrite length_seq; lia).
    rewrite seq_nth by lia. cbn [option_map]. f_equal. f_equal. lia.
Qed.

Lemma inner_loop_overwrites_witness :
  length (repeat 7 1000) = 1000%nat
  /\ inner_loop (repeat 7 1000) = Some workload_array.
Proof.
  split; [apply repeat_length |].
  destruct (inner_loop_overwrites (repeat 7 1000) (repeat_length 7 1000))
    as [H _].
  exact H.
Defined.

Lemma workload_contents_table :
  forallb (fun j =>
    if j =? 0 then packed j =? 0
    else if j <? 256 then F32.ltb (F32.of_int j) (Float8.to_float (packed j))
    else packed j =? 120) (Zrange 0 1000) = true.
Proof. vm_compute. reflexivity. Qed.

(** What the workloads store: slot 0 holds the zero byte; every slot [j]
    from 1 to 255 holds a byte that unpacks to more than [j]; every slot
    from 256 to 999 holds the overflow byte 120, which unpacks to 256. *)
Theorem workload_contents (j : Z) :
  0 <= j < 1000 ->
  (j = 0 -> packed j = 0)
  /\ (0 < j < 256 ->
      F32.ltb (F32.of_int j) (Float8.to_float (packed j)) = true)
  /\ (256 <= j -> packed j = 120).
Proof.
  intros Hj. pose proof (Zrange_forallb _ 0 1000 workload_contents_table j) as H.
  cbv beta in H. specialize (H ltac:(cbn; lia)).
  repeat split.
  - intros ->. reflexivity.
  - intros Hr. replace (j =? 0) with false in H by (symmetry; apply Z.eqb_neq; lia).
    replace (j <? 256) with true in H by (symmetry; apply Z.ltb_lt; lia).
    exact H.
  - intros Hr. replace (j =? 0) with false in H by (symmetry; apply Z.eqb_neq; lia).
    replace (j <? 256) with false in H by (symmetry; apply Z.ltb_ge; lia).
    now apply Z.eqb_eq.
Qed.

Lemma workload_contents_witness :
  0 <= 300 < 1000 /\ 256 <= 300 /\ packed 300 = 120.
Proof.
  split; [split; [discriminate | reflexivity] |]. split; [discriminate |].
  destruct (workload_contents 300) as (_ & _ & H);
    [split; [discriminate | reflexivity] |].
  apply H. discriminate.
Defined.

(** ** [estimateEnergyConsumption] *)

Lemma iter_pos_invariant {A : Type} (P : A -> Prop) (f : A -> A) :
  (forall x, P x -> P (f x)) ->
  forall (p : positive) (x : A), P x -> P (iter_pos f p x).
Proof.
  intros Hf. induction p as [p IH | p IH |]; intros x Hx; cbn [iter_pos]; auto.
Qed.

Lemma shr_1_nonneg (mrs : shr_record) :
  0 <= shr_m mrs -> 0 <= shr_m (shr_1 mrs).
Proof.
  destruct mrs as [m r s]. cbn [shr_m]. intros Hm. unfold shr_1.
  destruct m as [| [p | p |] | p]; cbn [shr_m]; lia.
Qed.

Lemma shr_fexp_nonneg (prec emax m e : Z) (l : location) :
  0 <= m -> 0 <= shr_m (fst (shr_fexp prec emax m e l)).
Proof.
  intros Hm. unfold shr_fexp, shr.
  assert (H0 : 0 <= shr_m (shr_record_of_loc m l))
    by (destruct l as [| []]; exact Hm).
  destruct (fexp prec emax (Zdigits2 m + e) - e) as [| p | p]; cbn [fst];
    try exact H0.
  apply (iter_pos_invariant (fun r => 0 <= shr_m r)); [apply shr_1_nonneg | exact H0].
Qed.

Lemma round_nearest_even_nonneg (m : Z) (l : location) :
  0 <= m -> 0 <= round_nearest_even m l.
Proof.
  intros Hm. unfold round_nearest_even.
  destruct l as [| []]; try lia. destruct (Z.even m); lia.
Qed.

(** Rounding a positive mantissa keeps the sign and never gives a NaN. *)
Lemma binary_round_aux_sign (prec emax : Z) (s : bool) (m : positive) (e : Z) :
  match binary_round_aux prec emax s (Zpos m) e loc_Exact with
  | S754_zero s' | S754_infinity s' | S754_finite s' _ _ => s' = s
  | S754_nan => False
  end.
Proof.
  unfold binary_round_aux.
  pose proof (shr_fexp_nonneg prec emax (Zpos m) e loc_Exact ltac:(lia)) as H1.
  destruct (shr_fexp prec emax (Zpos m) e loc_Exact) as [mrs' e'].
  cbn [fst] in H1.
  pose proof (round_nearest_even_nonneg (shr_m mrs') (loc_of_shr_record mrs') H1) as H2.
  pose proof (shr_fexp_nonneg prec emax _ e' loc_Exact H2) as H3.
  destruct (shr_fexp prec emax
              (round_nearest_even (shr_m mrs') (loc_of_shr_record mrs')) e' loc_Exact)
    as [mrs'' e''].
  cbn [fst] in H3.
  destruct (shr_m mrs'') as [| p | p]; [reflexivity | | lia].
  destruct (e'' <=? emax - prec); reflexivity.
Qed.

(** For a finite execution time and a finite power, neither negative, the
    estimate is never a NaN and never negative (it may be +infinity when
    the product overflows); it is zero when the execution time is zero. *)
Theorem estimate_not_negative (executionTime cpuPower : F64.double) :
  F64.is_finite executionTime = true -> F64.is_finite cpuPower = true ->
  F64.ltb executionTime F64.zero = false -> F64.ltb cpuPower F64.zero = false ->
  F64.is_nan (F64.estimateEnergyConsumption executionTime cpuPower) = false
  /\ F64.ltb (F64.estimateEnergyConsumption executionTime cpuPower) F64.zero = false
  /\ (F64.eqb executionTime F64.zero = true ->
      F64.eqb (F64.estimateEnergyConsumption executionTime cpuPower) F64.zero = true).
Proof.
  intros Hft Hfp Ht Hp. unfold F64.estimateEnergyConsumption, F64.mul.
  destruct executionTime as [st | st | | st mt et]; try discriminate Hft;
    destruct cpuPower as [sp | sp | | sp mp ep]; try discriminate Hfp;
    try (repeat split; reflexivity).
  destruct st; [discriminate Ht|]. destruct sp; [discriminate Hp|].
  cbn [SFmul xorb].
  pose proof (binary_round_aux_sign F64.prec F64.emax false (mt * mp) (et + ep)) as H.
  destruct (binary_round_aux F64.prec F64.emax false (Zpos (mt * mp)) (et + ep))
    as [s | s | | s m e]; try contradiction; subst s;
    (split; [reflexivity | split; [reflexivity | discriminate]]).
Qed.

Lemma estimate_not_negative_witness :
  F64.is_finite (S754_finite false 6755399441055744 (-51)) = true
  /\ F64.is_finite (S754_finite false 5629499534213120 (-48)) = true
  /\ F64.estimateEnergyConsumption (S754_finite false 6755399441055744 (-51))
                                   (S754_finite false 5629499534213120 (-48))
     = S754_finite false 8444249301319680 (-47)
  /\ F64.ltb (F64.estimateEnergyConsumption
                (S754_finite false 6755399441055744 (-51))
                (S754_finite false 5629499534213120 (-48))) F64.zero = false.
Proof.
  split; [reflexivity | split; [reflexivity | split; [reflexivity |]]].
  destruct (estimate_not_negative (S754_finite false 6755399441055744 (-51))
              (S754_finite false 5629499534213120 (-48))
              eq_refl eq_refl eq_refl eq_refl) as (_ & H & _).
  exact H.
Defined.
